(** * Layout-to-structure inference: outline extraction and section segmentation

    A shallow embedding of the two programs of the repository,

      - [Challenge_1a/process_pdfs.py]  (font clustering, heading filter, outline)
      - [Challenge_1b/main.py]          (section segmentation, ranking, excerpts)

    together with the properties stated about them.

    Conventions of the embedding.
      - Python [str] values are lists of characters; character classes
        ([str.strip], [\s], [\d], [\w], [str.isupper]) follow Python on the
        7-bit ASCII range, and a character outside that range belongs to no
        class.
      - Python floats (font sizes, coordinates, scores) are rationals [Q];
        NaN and rounding of arithmetic are outside the model.
      - A raised exception is the result [None] of the option monad.
      - Insertion-ordered dictionaries are association lists.
      - The PyMuPDF document and scikit-learn's [KMeans] and cosine similarity
        are external: the document is a record tree, the two numerical
        routines are section variables. *)

From Stdlib Require Import String Ascii List Bool Arith ZArith QArith Qabs Lia.
From Stdlib Require Import DecimalString Sorted Permutation Lqa.
Import ListNotations.

Set Implicit Arguments.

(* ================================================================== *)
(** * Python values and built-ins                                       *)
(* ================================================================== *)

Module Py.

Definition str := list ascii.

Definition lit (s : string) : str := list_ascii_of_string s.
Coercion lit : string >-> str.

(** The empty string. *)
Definition empty : str := [].

(** ** The option monad stands for "may raise". *)

Definition bind {A B} (m : option A) (k : A -> option B) : option B :=
  match m with
  | Some a => k a
  | None => None
  end.

Notation "x <- m ;; k" := (bind m (fun x => k))
  (at level 61, m at next level, right associativity).

Fixpoint mapM {A B} (f : A -> option B) (l : list A) : option (list B) :=
  match l with
  | [] => Some []
  | a :: r => b <- f a ;; bs <- mapM f r ;; Some (b :: bs)
  end.

(** ** Character classes *)

Definition ord (c : ascii) : nat := nat_of_ascii c.

Definition between (lo hi n : nat) : bool := (lo <=? n)%nat && (n <=? hi)%nat.

(** [str.isspace] / [\s] : TAB..CR, FS..US and the blank. *)
Definition isspace (c : ascii) : bool :=
  between 9 13 (ord c) || between 28 32 (ord c).

(** [\d] *)
Definition isdigit (c : ascii) : bool := between 48 57 (ord c).

Definition isupper_char (c : ascii) : bool := between 65 90 (ord c).
Definition islower_char (c : ascii) : bool := between 97 122 (ord c).

(** [\w] *)
Definition isword (c : ascii) : bool :=
  isdigit c || isupper_char c || islower_char c || (ord c =? 95)%nat.

(** ** Strings *)

Fixpoint str_eqb (a b : str) : bool :=
  match a, b with
  | [], [] => true
  | x :: a', y :: b' => Ascii.eqb x y && str_eqb a' b'
  | _, _ => false
  end.

Fixpoint dropwhile {A} (p : A -> bool) (l : list A) : list A :=
  match l with
  | [] => []
  | c :: r => if p c then dropwhile p r else l
  end.

Definition lstrip (s : str) : str := dropwhile isspace s.
Definition rstrip (s : str) : str := rev (dropwhile isspace (rev s)).

(** [s.strip()] *)
Definition strip (s : str) : str := rstrip (lstrip s).

(** [sep.join(parts)] *)
Fixpoint join (sep : str) (parts : list str) : str :=
  match parts with
  | [] => []
  | [p] => p
  | p :: r => p ++ sep ++ join sep r
  end.

Fixpoint startswith (s p : str) : bool :=
  match p, s with
  | [], _ => true
  | x :: p', y :: s' => Ascii.eqb x y && startswith s' p'
  | _ :: _, [] => false
  end.

(** [needle in hay] *)
Fixpoint contains (hay needle : str) : bool :=
  startswith hay needle ||
  match hay with
  | [] => false
  | _ :: r => contains r needle
  end.

(** [s.endswith(c)] for a one-character suffix *)
Definition endswith_char (s : str) (c : ascii) : bool :=
  match rev s with
  | [] => false
  | x :: _ => Ascii.eqb x c
  end.

(** [s.isupper()]: at least one cased character and no lower-case one. *)
Definition isupper (s : str) : bool :=
  existsb isupper_char s && negb (existsb islower_char s).

(** [s.lower()] *)
Definition lower_char (c : ascii) : ascii :=
  if isupper_char c then ascii_of_nat (ord c + 32) else c.

Definition lower (s : str) : str := map lower_char s.

(** [s.isdigit()] *)
Definition isdigit_str (s : str) : bool :=
  match s with
  | [] => false
  | _ => forallb isdigit s
  end.

(** A text of 7-bit characters, on which the character classes above are
    those of Python. *)
Definition is_ascii (s : str) : bool :=
  forallb (fun c => (ord c <? 128)%nat) s.

(** A string without white space at either end. *)
Definition trimmed (s : str) : Prop :=
  (forall c r, s = c :: r -> isspace c = false) /\
  (forall r c, s = r ++ [c] -> isspace c = false).

(** [str(n)] for an integer *)
Definition str_of_int (n : Z) : str := lit (NilZero.string_of_int (Z.to_int n)).

(** [int(c)] for a one-character string: [ValueError] unless a digit. *)
Definition int_of_char (c : ascii) : option Z :=
  if isdigit c then Some (Z.of_nat (ord c) - 48)%Z else None.

(** ** Numbers *)

Definition Qltb (a b : Q) : bool :=
  match a ?= b with
  | Lt => true
  | _ => false
  end.

(** [round(x, 1)]: nearest tenth, a tie going to the even neighbour. *)
Definition round1 (x : Q) : Q :=
  let n := (Qnum x * 10)%Z in
  let d := Zpos (Qden x) in
  let fl := (n / d)%Z in
  let r := (n mod d)%Z in
  let k := match (2 * r ?= d)%Z with
           | Lt => fl
           | Gt => (fl + 1)%Z
           | Eq => if Z.even fl then fl else (fl + 1)%Z
           end in
  Qmake k 10.

(** [max(l)] on integers: [ValueError] on an empty list. *)
Definition max (l : list nat) : option nat :=
  match l with
  | [] => None
  | x :: r => Some (fold_left Nat.max r x)
  end.

(** [numpy.argmin]: index of the first occurrence of the minimum;
    [ValueError] on an empty sequence. *)
Fixpoint argmin (l : list Q) : option nat :=
  match l with
  | [] => None
  | d :: r =>
      match argmin r with
      | None => Some 0%nat
      | Some j => if Qle_bool d (nth j r 0) then Some 0%nat else Some (S j)
      end
  end.

(** ** Stable sorting by a key: [sorted(l, key=...)] and [l.sort(key=...)] *)

Section Sorting.
Context {A K : Type} (leb : K -> K -> bool) (key : A -> K).

(** [x] goes in front of the first element whose key is not smaller:
    elements with equal keys keep their input order. *)
Fixpoint insert (x : A) (l : list A) : list A :=
  match l with
  | [] => [x]
  | y :: r => if leb (key x) (key y) then x :: l else y :: insert x r
  end.

Fixpoint sorted (l : list A) : list A :=
  match l with
  | [] => []
  | x :: r => insert x (sorted r)
  end.
End Sorting.

(** The order of the keys, on the elements. *)
Definition key_le {A K} (leb : K -> K -> bool) (key : A -> K) (a b : A) : Prop :=
  leb (key a) (key b) = true.

(** Tuple order on [(int, float)] keys. *)
Definition pair_leb (a b : nat * Q) : bool :=
  (fst a <? fst b)%nat || ((fst a =? fst b)%nat && Qle_bool (snd a) (snd b)).

(** ** The regular expressions of the two programs *)

(** [re.sub(r'C+', ' ', s)] for a character class [C]: every maximal run of
    characters of the class becomes one blank. *)
Fixpoint sub_runs (cls : ascii -> bool) (in_run : bool) (s : str) : str :=
  match s with
  | [] => []
  | c :: r =>
      if cls c
      then if in_run then sub_runs cls true r else " "%char :: sub_runs cls true r
      else c :: sub_runs cls false r
  end.

(** [re.fullmatch(r'\d+\.?', s)] *)
Definition fullmatch_number_dot (s : str) : bool :=
  match s with
  | [] => false
  | c :: _ =>
      isdigit c &&
      match dropwhile isdigit s with
      | [] => true
      | [d] => Ascii.eqb d "."%char
      | _ => false
      end
  end.

(** [re.fullmatch(r'\d+', s)] *)
Definition fullmatch_number (s : str) : bool :=
  match s with
  | [] => false
  | _ => forallb isdigit s
  end.

(** [re.match(r'^\d+\.?\d*', s)]: one leading digit is enough, the rest of
    the pattern matches the empty string. *)
Definition match_numbering (s : str) : bool :=
  match s with
  | [] => false
  | c :: _ => isdigit c
  end.

(** [re.findall(r"\b\w+\b", s)]: the maximal runs of word characters.
    [cur] is the run being read, reversed. *)
Fixpoint findall_words_from (cur : str) (s : str) : list str :=
  match s with
  | [] => match cur with
          | [] => []
          | _ => [rev cur]
          end
  | c :: r =>
      if isword c then findall_words_from (c :: cur) r
      else match cur with
           | [] => findall_words_from [] r
           | _ => rev cur :: findall_words_from [] r
           end
  end.

Definition findall_words (s : str) : list str := findall_words_from [] s.

Definition is_sentence_end (c : ascii) : bool :=
  Ascii.eqb c "."%char || Ascii.eqb c "!"%char || Ascii.eqb c "?"%char.

(** [re.split(r'(?<=[.!?]) +', s)]: a separator is a maximal run of blanks
    that follows one of [.!?].  [cur] is the piece being read (reversed),
    [after_end] tells that the previous character is one of [.!?], [in_sep]
    that a separator is being consumed. *)
Fixpoint split_sentences_from (cur : str) (after_end in_sep : bool) (s : str)
  : list str :=
  match s with
  | [] => [rev cur]
  | c :: r =>
      if Ascii.eqb c " "%char && (after_end || in_sep)
      then if in_sep
           then split_sentences_from [] false true r
           else rev cur :: split_sentences_from [] false true r
      else split_sentences_from (c :: cur) (is_sentence_end c) false r
  end.

Definition split_sentences (s : str) : list str :=
  split_sentences_from [] false false s.

(** A piece that ends with one of [.!?]. *)
Definition ends_sentence (p : str) : Prop :=
  exists q c, p = q ++ [c] /\ is_sentence_end c = true.

End Py.

Import Py.

Open Scope string_scope.
Open Scope list_scope.
Open Scope Q_scope.

(* ================================================================== *)
(** * The document as the parsing backend (PyMuPDF) supplies it        *)
(* ================================================================== *)

Module Fitz.

(** A bounding box [(x0, y0, x1, y1)]. *)
Record BBox := { bx0 : Q; by0 : Q; bx1 : Q; by1 : Q }.

Record Span := {
  span_text : str;
  span_size : Q;
  span_font : str;
  span_bbox : BBox }.

Record Line := { line_bbox : BBox; line_spans : list Span }.

(** [block_type] 0 is a text block; other blocks carry no lines. *)
Record Block := { block_type : Z; block_lines : list Line }.

Record Page := { rect_height : Q; blocks : list Block }.

Record Document := { pages : list Page }.

Definition page_count (doc : Document) : nat := length (pages doc).

Definition load_page (doc : Document) (pno : nat) : option Page :=
  nth_error (pages doc) pno.

End Fitz.

Import Fitz.

(* ================================================================== *)
(** * Challenge_1a/process_pdfs.py                                     *)
(* ================================================================== *)

Module Challenge_1a.

(** The dictionary [extract_spans] builds for every span. *)
Record span := {
  s_pno : nat;
  s_y0 : Q;
  s_text : str;
  s_size : Q;
  s_font : str;
  s_bbox : BBox }.

Record heading := {
  h_page : nat;
  h_y : Q;
  h_level : str;
  h_text : str }.

(** An entry of the outline: [{'level', 'text', 'page'}]. *)
Record entry := { o_level : str; o_text : str; o_page : nat }.

Definition line_to_spans (pno : nat) (line : Line) : list span :=
  let y0 := round1 (by0 (line_bbox line)) in
  flat_map
    (fun sp =>
       let text := strip (span_text sp) in
       match text with
       | [] => []
       | _ => [ {| s_pno := pno; s_y0 := y0; s_text := text;
                   s_size := span_size sp; s_font := span_font sp;
                   s_bbox := span_bbox sp |} ]
       end)
    (line_spans line).

Definition page_to_spans (pno : nat) (page : Page) : list span :=
  flat_map
    (fun block =>
       if negb (block_type block =? 0)%Z then []
       else flat_map (line_to_spans pno) (block_lines block))
    (blocks page).

(** [extract_spans(doc)] *)
Definition extract_spans (doc : Document) : list span :=
  flat_map (fun '(pno, page) => page_to_spans pno page)
           (combine (seq 0 (page_count doc)) (pages doc)).

(** [len(list(set(sizes)))] *)
Fixpoint count_unique (sizes : list Q) : nat :=
  match sizes with
  | [] => 0
  | x :: r => if existsb (Qeq_bool x) r then count_unique r
              else S (count_unique r)
  end.

(** [map_cluster(size, centers)] *)
Definition map_cluster (size : Q) (centers : list Q) : option nat :=
  let diffs := map (fun c => Qabs (size - c)) centers in
  argmin diffs.

(** [is_numbered(text)] *)
Definition is_numbered (text : str) : bool := match_numbering text.

(** ** Grouping spans *)

Definition key := (nat * Q)%type.

Definition key_eqb (a b : key) : bool :=
  (fst a =? fst b)%nat && Qeq_bool (snd a) (snd b).

(** [lines.setdefault(key, []).append(s)] *)
Fixpoint setdefault_append (lines : list (key * list span)) (k : key) (s : span)
  : list (key * list span) :=
  match lines with
  | [] => [(k, [s])]
  | (k', g) :: r =>
      if key_eqb k' k then (k', g ++ [s]) :: r
      else (k', g) :: setdefault_append r k s
  end.

Definition group_lines (spans : list span) : list (key * list span) :=
  fold_left (fun lines s => setdefault_append lines (s_pno s, s_y0 s) s)
            spans [].

Definition set_add (p : nat) (ps : list nat) : list nat :=
  if existsb (Nat.eqb p) ps then ps else ps ++ [p].

(** [text_pages.setdefault(text, set()).add(pno)] *)
Fixpoint setdefault_add (tp : list (str * list nat)) (t : str) (p : nat)
  : list (str * list nat) :=
  match tp with
  | [] => [(t, [p])]
  | (t', ps) :: r =>
      if str_eqb t' t then (t', set_add p ps) :: r
      else (t', ps) :: setdefault_add r t p
  end.

Definition build_text_pages (spans : list span) : list (str * list nat) :=
  fold_left (fun tp s => setdefault_add tp (s_text s) (s_pno s)) spans [].

(** [text_pages.get(text, [])] *)
Definition get_pages (tp : list (str * list nat)) (t : str) : list nat :=
  match find (fun kv => str_eqb (fst kv) t) tp with
  | Some (_, ps) => ps
  | None => []
  end.

(** ** The body of the loop over the lines *)

Definition is_styled (f : str) : bool :=
  contains f "Italic" || contains f "Bold".

(** The filters of the loop body, up to and including the exclusion of the
    body-text clusters.  [Some None] is [continue]; otherwise the merged
    text and [max_c] of the surviving line. *)
Definition filter_line (doc : Document) (centers : list Q)
    (text_pages : list (str * list nat)) (k : key) (group : list span)
  : option (option (str * nat)) :=
  let '(pno, y0) := k in
  page <- load_page doc pno ;;
  let page_h := rect_height page in
  if Qltb y0 30 || Qltb (page_h - 30) y0 then Some None else
  let group := sorted Qle_bool (fun s => bx0 (s_bbox s)) group in
  let text := join " " (map s_text group) in
  if (2 <? length (get_pages text_pages text))%nat then Some None else
  if fullmatch_number_dot text then Some None else
  if (5 <? length group)%nat then Some None else
  if fullmatch_number text then Some None else
  cluster_idxs <- mapM (fun s => map_cluster (s_size s) centers) group ;;
  max_c <- Py.max cluster_idxs ;;
  match (if existsb (Nat.eqb 0) cluster_idxs
         then if negb (forallb is_styled (map s_font group))
              then None
              else Some 1%nat
         else Some max_c) with
  | None => Some None
  | Some max_c =>
      if (max_c <? 2)%nat then Some None else Some (Some (text, max_c))
  end.

(** [f"H{d}"] *)
Definition level_of_depth (d : Z) : str := lit "H" ++ str_of_int d.

(** [len(centers) - max_c] *)
Definition base_depth (centers : list Q) (max_c : nat) : Z :=
  Z.of_nat (length centers) - Z.of_nat max_c.

(** [f"H{len(centers) - max_c}"] *)
Definition base_level (centers : list Q) (max_c : nat) : str :=
  level_of_depth (base_depth centers max_c).

(** The level after the adjustment for numbered lines. *)
Definition assign_level (centers : list Q) (max_c : nat) (text : str)
  : option str :=
  let level := base_level centers max_c in
  if is_numbered text && negb (str_eqb level "H1")
  then c <- nth_error level 1 ;;
       d <- int_of_char c ;;
       Some (level_of_depth (d - 1))
  else Some level.

Definition process_line (doc : Document) (centers : list Q)
    (text_pages : list (str * list nat)) (k : key) (group : list span)
  : option (option heading) :=
  r <- filter_line doc centers text_pages k group ;;
  match r with
  | None => Some None
  | Some (text, max_c) =>
      level <- assign_level centers max_c text ;;
      Some (Some {| h_page := fst k + 1; h_y := snd k;
                    h_level := level; h_text := text ++ lit " " |})
  end.

(** The loop [for (pno, y0), group in lines.items()]. *)
Fixpoint collect_headings (doc : Document) (centers : list Q)
    (text_pages : list (str * list nat)) (lines : list (key * list span))
  : option (list heading) :=
  match lines with
  | [] => Some []
  | (k, group) :: r =>
      oh <- process_line doc centers text_pages k group ;;
      hs <- collect_headings doc centers text_pages r ;;
      Some (match oh with
            | Some h => h :: hs
            | None => hs
            end)
  end.

(** ** Title and outline *)

Definition is_p1_h1 (h : heading) : bool :=
  (h_page h =? 1)%nat && str_eqb (h_level h) "H1".

(** [sorted(p1_h1, key=lambda h: h['y'])[:2]] *)
Definition title_entries (headings : list heading) : list heading :=
  firstn 2 (sorted Qle_bool h_y (filter is_p1_h1 headings)).

Definition title_of (p1_h1 : list heading) : str :=
  strip (concat (map h_text p1_h1)).

Definition in_title_set (p1_h1 : list heading) (h : heading) : bool :=
  existsb (str_eqb (h_text h)) (map h_text p1_h1).

Definition remove_title_entries (headings : list heading) : list heading :=
  let p1_h1 := title_entries headings in
  filter (fun h => negb (is_p1_h1 h && in_title_set p1_h1 h)) headings.

Definition entry_of (h : heading) : entry :=
  {| o_level := h_level h; o_text := h_text h; o_page := h_page h |}.

Section Extraction.

(** scikit-learn's [KMeans(n_clusters=n, random_state=rs).fit(X)], read at
    [cluster_centers_.flatten()].  [RNG] is the state of the ambient random
    generator, which a fit without [random_state] draws from. *)
Variable RNG : Type.
Variable KMeans_fit : option Z -> RNG -> nat -> list Q -> list Q.

(** With [random_state] given, the fit does not read the ambient
    generator. *)
Definition seeded_fit_is_deterministic : Prop :=
  forall seed g1 g2 n X,
    KMeans_fit (Some seed) g1 n X = KMeans_fit (Some seed) g2 n X.

(** [cluster_font_sizes(sizes, n)] *)
Definition cluster_font_sizes (g : RNG) (sizes : list Q) (n : nat) : list Q :=
  let n := if (count_unique sizes <? n)%nat then count_unique sizes else n in
  if (n =? 0)%nat then []
  else sorted Qle_bool (fun c => c) (KMeans_fit (Some 42%Z) g n sizes).

(** The headings after [headings.sort(key=lambda h: (h['page'], h['y']))]. *)
Definition sorted_headings (g : RNG) (doc : Document) : option (list heading) :=
  let spans := extract_spans doc in
  let sizes := map s_size spans in
  let centers := cluster_font_sizes g sizes 4 in
  let lines := group_lines spans in
  let text_pages := build_text_pages spans in
  headings <- collect_headings doc centers text_pages lines ;;
  Some (sorted pair_leb (fun h => (h_page h, h_y h)) headings).

(** [extract_outline(pdf_path)], on the opened document. *)
Definition extract_outline (g : RNG) (doc : Document)
  : option (str * list entry) :=
  match extract_spans doc with
  | [] => Some (empty, [])
  | _ =>
      headings <- sorted_headings g doc ;;
      let p1_h1 := title_entries headings in
      let title := title_of p1_h1 in
      let headings := remove_title_entries headings in
      Some (title, map entry_of headings)
  end.

End Extraction.

(** A clustering for the examples: when the sample has no more than [n]
    distinct values, every distinct value is a center of its own; without
    [random_state] the order of the centers depends on the generator. *)
Fixpoint distinct (l : list Q) : list Q :=
  match l with
  | [] => []
  | x :: r => if existsb (Qeq_bool x) r then distinct r else x :: distinct r
  end.

Definition exact_KMeans (rs : option Z) (g : bool) (n : nat) (X : list Q)
  : list Q :=
  match rs with
  | Some _ => firstn n (distinct X)
  | None => if g then firstn n (distinct X) else firstn n (rev (distinct X))
  end.

(** ** Notions used in the statements *)

(** The text of a line: its spans from left to right, joined by blanks. *)
Definition merged_text (group : list span) : str :=
  join " " (map s_text (sorted Qle_bool (fun s => bx0 (s_bbox s)) group)).

(** The pages (0-based) on which some line of the document has the merged
    text [t]. *)
Definition line_text_pages (doc : Document) (t : str) : list nat :=
  fold_left
    (fun ps '(k, group) =>
       if str_eqb (merged_text group) t then set_add (fst k) ps else ps)
    (group_lines (extract_spans doc)) [].

(** Every group of [lines] is non-empty and made of spans of the page of
    its key. *)
Definition well_grouped (spans : list span) (lines : list (key * list span))
  : Prop :=
  forall k g, In (k, g) lines ->
    g <> [] /\ forall s, In s g -> In s spans /\ s_pno s = fst k.

(** The keys of [lines] are pairwise different. *)
Definition distinct_keys (lines : list (key * list span)) : Prop :=
  ForallOrdPairs (fun a b => key_eqb (fst a) (fst b) = false) lines.

(** [s] is digits, with or without one period at the end. *)
Definition is_number_text (s : str) : Prop :=
  exists ds, ds <> [] /\ forallb isdigit ds = true /\
             (s = ds \/ s = ds ++ lit ".").

(** Document order of headings: by page, then by vertical position. *)
Definition position_le (a b : heading) : Prop :=
  (h_page a < h_page b)%nat \/ (h_page a = h_page b /\ h_y a <= h_y b).

End Challenge_1a.

(* ================================================================== *)
(** * Challenge_1b/main.py                                             *)
(* ================================================================== *)

Module Challenge_1b.

(** The characters [ .,!?;:-() ] kept by the second substitution of
    [clean_text], next to [\w] and [\s]. *)
Definition is_kept_punct (c : ascii) : bool :=
  existsb (Ascii.eqb c) (lit ".,!?;:-()").

Definition is_stripped_char (c : ascii) : bool :=
  negb (isword c || isspace c || is_kept_punct c).

(** The characters [clean_text] lets through: word characters, the blank
    and the kept punctuation. *)
Definition is_clean_char (c : ascii) : bool :=
  isword c || Ascii.eqb c " "%char || is_kept_punct c.

Fixpoint no_double_blank (s : str) : bool :=
  match s with
  | [] => true
  | c :: r =>
      match r with
      | [] => true
      | d :: _ =>
          negb (Ascii.eqb c " "%char && Ascii.eqb d " "%char)
          && no_double_blank r
      end
  end.

(** [clean_text(text)] *)
Definition clean_text (text : str) : str :=
  let text := sub_runs isspace false text in
  let text := sub_runs is_stripped_char false text in
  strip text.

Definition stop_words : list str :=
  map lit
    [ "the"; "a"; "an"; "and"; "or"; "but"; "in"; "on"; "at"; "to"; "for";
      "of"; "with"; "by"; "is"; "are"; "was"; "were"; "be"; "been"; "have";
      "has"; "had"; "do"; "does"; "did"; "will"; "would"; "could"; "should";
      "this"; "that"; "these"; "those"; "i"; "you"; "he"; "she"; "it"; "we";
      "they"; "me"; "him"; "her"; "us"; "them"; "my"; "your"; "his"; "its";
      "our"; "their"; "from"; "as"; "so"; "all"; "any"; "can"; "may"; "not" ].

(** [extract_keywords(text, min_length)] *)
Definition extract_keywords (text : str) (min_length : nat) : list str :=
  let words := findall_words (lower text) in
  filter (fun w => (min_length <=? length w)%nat
                   && negb (existsb (str_eqb w) stop_words)
                   && negb (isdigit_str w))
         words.

(** An element of the list [spans] of [extract_sections]: one per line. *)
Record item := {
  i_p : nat;
  i_y : Q;
  i_text : str;
  i_spans : list Span }.

(** A section dictionary.  [document], [score] and [importance_rank] are
    keys added later, by [process_collection] and [rank_sections]. *)
Record section := {
  title : str;
  page : nat;
  content : str;
  document : option str;
  score : option Q;
  importance_rank : option nat }.

Record excerpt := {
  e_document : str;
  refined_text : str;
  page_number : nat }.

Definition new_section (t : str) (p : nat) (c : str) : section :=
  {| title := t; page := p; content := c;
     document := None; score := None; importance_rank := None |}.

Definition set_content (s : section) (c : str) : section :=
  {| title := title s; page := page s; content := c;
     document := document s; score := score s;
     importance_rank := importance_rank s |}.

Definition set_document (d : str) (s : section) : section :=
  {| title := title s; page := page s; content := content s;
     document := Some d; score := score s;
     importance_rank := importance_rank s |}.

Definition set_score (q : Q) (s : section) : section :=
  {| title := title s; page := page s; content := content s;
     document := document s; score := Some q;
     importance_rank := importance_rank s |}.

Definition set_importance_rank (r : nat) (s : section) : section :=
  {| title := title s; page := page s; content := content s;
     document := document s; score := score s;
     importance_rank := Some r |}.

Definition line_to_item (p : nat) (line : Line) : list item :=
  let y0 := round1 (by0 (line_bbox line)) in
  let stripped := map (fun sp => strip (span_text sp)) (line_spans line) in
  let txt := join " " (filter (fun t => negb (str_eqb t empty)) stripped) in
  match txt with
  | [] => []
  | _ => [ {| i_p := p; i_y := y0; i_text := txt;
              i_spans := line_spans line |} ]
  end.

Definition page_to_items (p : nat) (pg : Page) : list item :=
  flat_map
    (fun b =>
       if negb (block_type b =? 0)%Z then []
       else flat_map (line_to_item p) (block_lines b))
    (blocks pg).

Definition document_items (doc : Document) : list item :=
  flat_map (fun '(p, pg) => page_to_items p pg)
           (combine (seq 0 (page_count doc)) (pages doc)).

(** The heading heuristic: all caps or ends with [':']. *)
Definition is_title_line (txt : str) : bool :=
  isupper txt || endswith_char txt ":"%char.

(** One turn of the loop over the sorted items; the state is
    [(sections, current)]. *)
Definition step (st : list section * option section) (it : item)
  : list section * option section :=
  let '(sections, current) := st in
  let txt := i_text it in
  if is_title_line txt
  then ((match current with
         | Some c => sections ++ [c]
         | None => sections
         end),
        Some (new_section (clean_text txt) (i_p it + 1) empty))
  else match current with
       | Some c =>
           (sections,
            Some (set_content c (content c ++ lit " " ++ clean_text txt)))
       | None =>
           (sections,
            Some (new_section "Introduction" (i_p it + 1) (clean_text txt)))
       end.

(** The list [sections] when the loop is over and the last section closed. *)
Definition close (st : list section * option section) : list section :=
  match snd st with
  | Some c => fst st ++ [c]
  | None => fst st
  end.

Definition segment (items : list item) : list section :=
  close (fold_left step
                   (sorted pair_leb (fun it => (i_p it, i_y it)) items)
                   ([], None)).

(** [DocumentAnalyzer.extract_sections], on the opened document. *)
Definition extract_sections (doc : Document) : list section :=
  filter (fun s => (20 <? length (content s))%nat)
         (segment (document_items doc)).

(** The analyzer object: its two limits. *)
Record DocumentAnalyzer := { max_sections : nat; max_subs : nat }.

(** [DocumentAnalyzer()] *)
Definition default_analyzer : DocumentAnalyzer :=
  {| max_sections := 10; max_subs := 5 |}.

Definition excerpt_of (sec : section) : option excerpt :=
  let sents := split_sentences (content sec) in
  let sel := firstn 3 sents in
  let text := join " " sel in
  d <- document sec ;;
  Some {| e_document := d; refined_text := text; page_number := page sec |}.

(** [DocumentAnalyzer.extract_subsections]; [persona] and [job] are unused. *)
Definition extract_subsections (self : DocumentAnalyzer) (ranked : list section)
  : option (list excerpt) :=
  mapM excerpt_of (firstn (max_subs self) ranked).

Section Ranking.

(** The vectorizer fitted on [docs + [query]] followed by the cosine
    similarity of the query row with every document row, for the runs in
    which the library returns: it raises on an empty vocabulary, and then
    nothing below is reached. *)
Variable similarities : list str -> str -> list Q.

Definition score_key (s : section) : Q :=
  match score s with
  | Some q => - q
  | None => 0
  end.

(** [DocumentAnalyzer.rank_sections] *)
Definition rank_sections (self : DocumentAnalyzer) (sections : list section)
    (persona job : str) : option (list section) :=
  let docs := map (fun s => title s ++ lit " " ++ content s) sections in
  let query := persona ++ lit " " ++ job in
  let sims := similarities docs query in
  scored <- mapM (fun '(i, s) => q <- nth_error sims i ;; Some (set_score q s))
                 (combine (seq 0 (length sections)) sections) ;;
  let ranked := firstn (max_sections self) (sorted Qle_bool score_key scored) in
  Some (map (fun '(idx, s) => set_importance_rank idx s)
            (combine (seq 1 (length ranked)) ranked)).

(** The computation of [process_collection]: the ranked sections and the
    excerpts written to the output. *)
Definition process_collection (docs : list (str * Document))
    (persona job : str) : option (list section * list excerpt) :=
  let analyzer := default_analyzer in
  let all_secs :=
    flat_map (fun '(filename, pdf) =>
                map (set_document filename) (extract_sections pdf))
             docs in
  ranked <- rank_sections analyzer all_secs persona job ;;
  subs <- extract_subsections analyzer ranked ;;
  Some (ranked, subs).

End Ranking.

(** ** Notions used in the statements *)

(** What the loop appends to an open section for the lines [body]. *)
Definition body_text (body : list item) : str :=
  concat (map (fun b => lit " " ++ clean_text (i_text b)) body).

Definition is_body_line (it : item) : Prop :=
  is_title_line (i_text it) = false.

(** The lines after a section: none, or a title line first. *)
Definition ends_section (rest : list item) : Prop :=
  match rest with
  | [] => True
  | t :: _ => is_title_line (i_text t) = true
  end.

(** [s] is the section opened by a title line of [lines] and fed by the
    lines [body] that follow it. *)
Definition opened_by_title (lines : list item) (s : section) (body : list item)
  : Prop :=
  exists pre t rest,
    lines = pre ++ t :: body ++ rest /\
    is_title_line (i_text t) = true /\
    Forall is_body_line body /\
    ends_section rest /\
    s = new_section (clean_text (i_text t)) (i_p t + 1) (body_text body).

(** [s] is the section synthesized for lines that precede every title. *)
Definition implicit_introduction (lines : list item) (s : section) : Prop :=
  exists first body rest,
    lines = first :: body ++ rest /\
    is_body_line first /\
    Forall is_body_line body /\
    ends_section rest /\
    s = new_section "Introduction" (i_p first + 1)
                    (clean_text (i_text first) ++ body_text body).

(** The sections the loop still produces once [c] is the open section. *)
Fixpoint run_open (c : section) (ls : list item) : list section :=
  match ls with
  | [] => [c]
  | it :: r =>
      if is_title_line (i_text it)
      then c :: run_open (new_section (clean_text (i_text it)) (i_p it + 1) empty) r
      else run_open
             (set_content c (content c ++ lit " " ++ clean_text (i_text it))) r
  end.

(** [a] has a score at least as high as [b]. *)
Definition score_ge (a b : section) : Prop :=
  match score a, score b with
  | Some x, Some y => y <= x
  | _, _ => False
  end.

(** The keys of a section dictionary that ranking does not write. *)
Definition base (s : section) : str * nat * str * option str :=
  (title s, page s, content s, document s).

Definition has_score (q : Q) (s : section) : bool :=
  match score s with
  | Some x => Qeq_bool x q
  | None => false
  end.

(** What a section shows of the line that opened it. *)
Definition heading_of_line (t : item) : str * nat :=
  (clean_text (i_text t), (i_p t + 1)%nat).

Definition is_title_item (t : item) : bool := is_title_line (i_text t).

(** The section that lines which precede every title open. *)
Definition introduction_heading (lines : list item) : list (str * nat) :=
  match lines with
  | [] => []
  | l :: _ =>
      if is_title_item l then [] else [(lit "Introduction", (i_p l + 1)%nat)]
  end.

(** [sims[i]] is read for every section: the text of each, and the query. *)
Definition section_texts (sections : list section) : list str :=
  map (fun s => title s ++ lit " " ++ content s) sections.

(** [scored] is the pool [sections], in its order, with the score of each
    section set from [sims]. *)
Definition scored_from (sims : list Q) (sections scored : list section) : Prop :=
  length scored = length sections /\
  forall i s, nth_error sections i = Some s ->
    exists q, nth_error sims i = Some q /\
              nth_error scored i = Some (set_score q s).

(** The lines at one position of one page. *)
Definition at_position (p : nat) (y : Q) (it : item) : bool :=
  (i_p it =? p)%nat && Qeq_bool (i_y it) y.

Definition sorted_items (doc : Document) : list item :=
  sorted pair_leb (fun it => (i_p it, i_y it)) (document_items doc).

End Challenge_1b.

(* ================================================================== *)
(** * Sample documents                                                 *)
(* ================================================================== *)

Module Samples.

Import Challenge_1a Challenge_1b.

Definition mk_span (t : str) (sz : Q) (f : str) (x : Q) : Span :=
  {| span_text := t; span_size := sz; span_font := f;
     span_bbox := {| bx0 := x; by0 := 0; bx1 := x + 40; by1 := 0 |} |}.

Definition mk_line (y : Q) (sps : list Span) : Line :=
  {| line_bbox := {| bx0 := 0; by0 := y; bx1 := 500; by1 := y + 12 |};
     line_spans := sps |}.

Definition mk_page (ls : list Line) : Page :=
  {| rect_height := 800;
     blocks := [ {| block_type := 0; block_lines := ls |} ] |}.

(** One page: a large heading, a numbered and a plain line one size tier
    below, body text and a caption.  Four font sizes. *)
Definition doc_numbered : Document :=
  {| pages :=
       [ mk_page
           [ mk_line 100 [mk_span "Overview" 20 "Helvetica" 50];
             mk_line 150 [mk_span "1.1 Scope" 14 "Helvetica" 50];
             mk_line 180 [mk_span "Details" 14 "Helvetica" 50];
             mk_line 200 [mk_span "Some body text" 10 "Helvetica" 50];
             mk_line 220 [mk_span "A caption" 12 "Helvetica" 50] ] ] |}.

(** The centers of its four font sizes. *)
Definition four_centers : list Q := [10; 12; 14; 20].

Definition numbered_group : list span :=
  [ {| s_pno := 0; s_y0 := round1 150; s_text := "1.1 Scope"; s_size := 14;
       s_font := "Helvetica";
       s_bbox := {| bx0 := 50; by0 := 0; bx1 := 50 + 40; by1 := 0 |} |} ].

(** Three pages that repeat the line "Annual Report", set as two spans. *)
Definition report_line : Line :=
  mk_line 100 [ mk_span "Annual" 20 "Helvetica" 50;
                mk_span "Report" 20 "Helvetica" 120 ].

Definition doc_repeated : Document :=
  {| pages :=
       [ mk_page [ report_line;
                   mk_line 200 [mk_span "Body text" 10 "Helvetica" 50];
                   mk_line 220 [mk_span "A caption" 12 "Helvetica" 50] ];
         mk_page [ report_line ];
         mk_page [ report_line ] ] |}.

(** A first page with three top-level lines, two of them with equal text. *)
Definition doc_title : Document :=
  {| pages :=
       [ mk_page
           [ mk_line 100 [mk_span "Notes" 20 "Helvetica" 50];
             mk_line 200 [mk_span "Part One" 20 "Helvetica" 50];
             mk_line 300 [mk_span "Notes" 20 "Helvetica" 50];
             mk_line 400 [mk_span "Body text" 10 "Helvetica" 50];
             mk_line 420 [mk_span "A caption" 12 "Helvetica" 50] ] ] |}.

Definition second_notes : heading :=
  {| h_page := 1; h_y := round1 300; h_level := "H1"; h_text := "Notes " |}.

(** A document without fragments: an image block and a blank span. *)
Definition doc_blank : Document :=
  {| pages :=
       [ {| rect_height := 800;
            blocks := [ {| block_type := 1; block_lines := [] |};
                        {| block_type := 0;
                           block_lines :=
                             [ mk_line 100 [mk_span "   " 12 "Helvetica" 50] ]
                        |} ] |} ] |}.

(** A title line followed by one line of 19 characters. *)
Definition doc_twenty : Document :=
  {| pages :=
       [ mk_page
           [ mk_line 100 [mk_span "SUMMARY:" 12 "Helvetica" 50];
             mk_line 120 [mk_span "Nineteen characters" 12 "Helvetica" 50] ] ] |}.

Definition twenty_section : section :=
  new_section "SUMMARY:" 1 " Nineteen characters".

(** Lines before the first title, then two titled sections. *)
Definition doc_sections : Document :=
  {| pages :=
       [ mk_page
           [ mk_line 100 [mk_span "This report has two parts." 12 "Helvetica" 50];
             mk_line 120 [mk_span "METHODS" 12 "Helvetica" 50];
             mk_line 140 [mk_span "We ran it. It worked!  Twice? Yes." 12 "Helvetica" 50];
             mk_line 160 [mk_span "No more to say." 12 "Helvetica" 50];
             mk_line 180 [mk_span "Results:" 12 "Helvetica" 50];
             mk_line 200 [mk_span "All figures are final." 12 "Helvetica" 50] ] ] |}.

Definition methods_section : section :=
  new_section "METHODS" 1 " We ran it. It worked! Twice? Yes. No more to say.".

Definition introduction_section : section :=
  new_section "Introduction" 1 "This report has two parts.".

(** A first line of asterisks, which [clean_text] empties, then a line of
    text. *)
Definition doc_stars : Document :=
  {| pages :=
       [ mk_page
           [ mk_line 100 [mk_span "***" 12 "Helvetica" 50];
             mk_line 120 [mk_span "The report starts after the rule."
                                  12 "Helvetica" 50] ] ] |}.

Definition stars_first_line : item :=
  {| i_p := 0; i_y := round1 100; i_text := "***";
     i_spans := [mk_span "***" 12 "Helvetica" 50] |}.

Definition stars_second_line : item :=
  {| i_p := 0; i_y := round1 120;
     i_text := "The report starts after the rule.";
     i_spans := [mk_span "The report starts after the rule."
                         12 "Helvetica" 50] |}.

Definition stars_section : section :=
  new_section "Introduction" 1 " The report starts after the rule.".

(** A stand-in for the similarity of the ranking: 1 for a document text that
    contains the query, 0 otherwise. *)
Definition containment (docs : list str) (query : str) : list Q :=
  map (fun d => if contains d query then 1 else 0) docs.

(** Two documents pooled for one ranking, with the result for the persona
    "figures" and the job "are final". *)
Definition sample_collection : list (str * Document) :=
  [ (lit "a.pdf", doc_sections); (lit "b.pdf", doc_twenty) ].

(** The sections [process_collection] pools from them. *)
Definition sample_pool : list section :=
  flat_map (fun '(filename, pdf) =>
              map (set_document filename) (extract_sections pdf))
           sample_collection.

Definition sample_ranked : list section :=
  [ set_importance_rank 1
      (set_score 1 (set_document "a.pdf"
         (new_section "Results:" 1 " All figures are final.")));
    set_importance_rank 2
      (set_score 0 (set_document "a.pdf" introduction_section));
    set_importance_rank 3
      (set_score 0 (set_document "a.pdf" methods_section)) ].

Definition sample_excerpts : list excerpt :=
  [ {| e_document := "a.pdf"; refined_text := " All figures are final.";
       page_number := 1 |};
    {| e_document := "a.pdf"; refined_text := "This report has two parts.";
       page_number := 1 |};
    {| e_document := "a.pdf"; refined_text := " We ran it. It worked! Twice?";
       page_number := 1 |} ].

(** A clustering that honours the number of clusters: the distinct values
    first, padded with zeros when there are fewer than [n]. *)
Definition padded_KMeans (rs : option Z) (g : bool) (n : nat) (X : list Q)
  : list Q :=
  firstn n (distinct X ++ repeat 0 n).

(** One page, two font sizes only. *)
Definition doc_two_sizes : Document :=
  {| pages :=
       [ mk_page
           [ mk_line 100 [mk_span "Big words" 20 "Helvetica" 50];
             mk_line 200 [mk_span "Small words" 10 "Helvetica" 50] ] ] |}.

(** Two pages; the only line of the largest size is on the second. *)
Definition doc_late_heading : Document :=
  {| pages :=
       [ mk_page
           [ mk_line 100 [mk_span "Opening remarks" 14 "Helvetica" 50];
             mk_line 200 [mk_span "Some body text" 10 "Helvetica" 50];
             mk_line 220 [mk_span "A caption" 12 "Helvetica" 50] ];
         mk_page
           [ mk_line 100 [mk_span "Main part" 20 "Helvetica" 50] ] ] |}.

Definition late_headings : list Challenge_1a.heading :=
  [ {| h_page := 1; h_y := round1 100; h_level := "H2";
       h_text := "Opening remarks " |};
    {| h_page := 2; h_y := round1 100; h_level := "H1";
       h_text := "Main part " |} ].

Definition details_entry : Challenge_1a.entry :=
  {| o_level := "H2"; o_text := "Details "; o_page := 1 |}.

End Samples.

(* ================================================================== *)
(** * Properties of the built-ins                                      *)
(* ================================================================== *)

Section SortingFacts.
Context {A K : Type} (leb : K -> K -> bool) (key : A -> K).

Lemma insert_In (x y : A) (l : list A) :
  In y (insert leb key x l) <-> y = x \/ In y l.
Proof.
  induction l as [|z l IH]; simpl.
  - intuition.
  - destruct (leb (key x) (key z)); simpl; rewrite ?IH; intuition.
Qed.

Lemma sorted_In (y : A) (l : list A) :
  In y (sorted leb key l) <-> In y l.
Proof.
  induction l as [|x l IH]; simpl.
  - tauto.
  - rewrite insert_In, IH. intuition.
Qed.

Lemma insert_length (x : A) (l : list A) :
  length (insert leb key x l) = S (length l).
Proof.
  induction l as [|z l IH]; simpl; auto.
  destruct (leb (key x) (key z)); simpl; auto.
Qed.

Lemma sorted_length (l : list A) : length (sorted leb key l) = length l.
Proof.
  induction l as [|x l IH]; simpl; auto.
  rewrite insert_length. auto.
Qed.

Hypothesis leb_total : forall a b, leb a b = true \/ leb b a = true.
Hypothesis leb_trans :
  forall a b c, leb a b = true -> leb b c = true -> leb a c = true.

Lemma insert_StronglySorted (x : A) (l : list A) :
  StronglySorted (key_le leb key) l ->
  StronglySorted (key_le leb key) (insert leb key x l).
Proof.
  induction 1 as [|z l Hl IH Hz]; simpl.
  - constructor; constructor.
  - destruct (leb (key x) (key z)) eqn:E.
    + constructor.
      * constructor; assumption.
      * constructor; [exact E|].
        rewrite Forall_forall in *. intros w Hw.
        unfold key_le in *. eapply leb_trans; [exact E | auto].
    + constructor; [exact IH|].
      rewrite Forall_forall in *. intros w Hw.
      apply insert_In in Hw. destruct Hw as [->|Hw]; [|auto].
      unfold key_le. destruct (leb_total (key x) (key z)); congruence.
Qed.

Lemma sorted_StronglySorted (l : list A) :
  StronglySorted (key_le leb key) (sorted leb key l).
Proof.
  induction l as [|x l IH]; simpl.
  - constructor.
  - apply insert_StronglySorted, IH.
Qed.
End SortingFacts.

Lemma StronglySorted_filter {A} (R : A -> A -> Prop) (p : A -> bool) l :
  StronglySorted R l -> StronglySorted R (filter p l).
Proof.
  induction 1 as [|x l Hl IH Hx]; simpl.
  - constructor.
  - destruct (p x); [|exact IH].
    constructor; [exact IH|].
    rewrite Forall_forall in *. intros y Hy.
    apply filter_In in Hy. apply Hx, Hy.
Qed.

Lemma firstn_In {A} (x : A) n l : In x (firstn n l) -> In x l.
Proof.
  revert l. induction n as [|n IH]; intros [|y l]; simpl; try tauto.
  intros [H|H]; auto.
Qed.

Lemma StronglySorted_firstn {A} (R : A -> A -> Prop) n l :
  StronglySorted R l -> StronglySorted R (firstn n l).
Proof.
  intros H. revert n.
  induction H as [|x l Hl IH Hx]; intros [|n]; simpl; try constructor.
  - apply IH.
  - rewrite Forall_forall in *. intros y Hy.
    apply Hx. eapply firstn_In. exact Hy.
Qed.

Lemma StronglySorted_weaken {A} (R S : A -> A -> Prop) l :
  (forall a b, R a b -> S a b) -> StronglySorted R l -> StronglySorted S l.
Proof.
  intros HRS. induction 1 as [|x l Hl IH Hx]; constructor; auto.
  eapply Forall_impl; [|exact Hx]. auto.
Qed.

Lemma StronglySorted_map {A B} (R : A -> A -> Prop) (S : B -> B -> Prop)
    (f : A -> B) l :
  (forall a b, R a b -> S (f a) (f b)) ->
  StronglySorted R l -> StronglySorted S (map f l).
Proof.
  intros HRS. induction 1 as [|x l Hl IH Hx]; simpl; constructor; auto.
  apply Forall_map. eapply Forall_impl; [|exact Hx]. auto.
Qed.

Lemma Qle_bool_total (a b : Q) : Qle_bool a b = true \/ Qle_bool b a = true.
Proof.
  rewrite !Qle_bool_iff.
  destruct (Qlt_le_dec a b) as [H|H]; [left; apply Qlt_le_weak, H | right; exact H].
Qed.

Lemma Qle_bool_trans (a b c : Q) :
  Qle_bool a b = true -> Qle_bool b c = true -> Qle_bool a c = true.
Proof. rewrite !Qle_bool_iff. apply Qle_trans. Qed.

Lemma pair_leb_total (a b : nat * Q) :
  pair_leb a b = true \/ pair_leb b a = true.
Proof.
  unfold pair_leb. destruct a as [p y], b as [p' y']; simpl.
  destruct (lt_eq_lt_dec p p') as [[H|H]|H].
  - left. apply orb_true_iff. left. apply Nat.ltb_lt, H.
  - subst p'. rewrite Nat.ltb_irrefl, Nat.eqb_refl. simpl.
    apply Qle_bool_total.
  - right. apply orb_true_iff. left. apply Nat.ltb_lt, H.
Qed.

Lemma pair_leb_spec (a b : nat * Q) :
  pair_leb a b = true <->
  (fst a < fst b)%nat \/ (fst a = fst b /\ snd a <= snd b).
Proof.
  unfold pair_leb.
  rewrite orb_true_iff, andb_true_iff, Nat.ltb_lt, Nat.eqb_eq, Qle_bool_iff.
  tauto.
Qed.

Lemma pair_leb_trans (a b c : nat * Q) :
  pair_leb a b = true -> pair_leb b c = true -> pair_leb a c = true.
Proof.
  rewrite !pair_leb_spec.
  intros [H|[H H']] [G|[G G']].
  - left. lia.
  - left. lia.
  - left. lia.
  - right. split; [congruence | eapply Qle_trans; eauto].
Qed.

(** ** [argmin], [max], [mapM] *)

Lemma argmin_spec (l : list Q) :
  l <> [] ->
  exists i, argmin l = Some i /\ (i < length l)%nat /\
    (forall j, (j < length l)%nat -> nth i l 0 <= nth j l 0) /\
    (forall j, (j < i)%nat -> nth i l 0 < nth j l 0).
Proof.
  induction l as [|d r IH]; [congruence|]. intros _.
  destruct r as [|d' r'].
  - exists 0%nat. simpl. repeat split; try lia.
    intros j Hj. replace j with 0%nat by lia. apply Qle_refl.
  - destruct IH as (i & Hi & Hlt & Hmin & Hfirst); [congruence|].
    change (argmin (d :: d' :: r')) with
      (match argmin (d' :: r') with
       | None => Some 0%nat
       | Some j => if Qle_bool d (nth j (d' :: r') 0) then Some 0%nat
                   else Some (S j)
       end).
    rewrite Hi.
    destruct (Qle_bool d (nth i (d' :: r') 0)) eqn:E.
    + apply Qle_bool_iff in E.
      exists 0%nat. repeat split; try (simpl; lia).
      intros [|j] Hj; [apply Qle_refl|].
      change (d <= nth j (d' :: r') 0).
      eapply Qle_trans; [exact E|]. apply Hmin. simpl in Hj |- *. lia.
    + assert (Hd : nth i (d' :: r') 0 < d).
      { apply Qnot_le_lt. intros H. apply Qle_bool_iff in H. congruence. }
      exists (S i). repeat split.
      * simpl in Hlt |- *. lia.
      * intros [|j] Hj.
        -- apply Qlt_le_weak. exact Hd.
        -- apply (Hmin j). simpl in Hj |- *. lia.
      * intros [|j] Hj.
        -- exact Hd.
        -- apply (Hfirst j). lia.
Qed.

Lemma fold_max_ge (l : list nat) (x : nat) :
  (x <= fold_left Nat.max l x)%nat /\
  (fold_left Nat.max l x = x \/ In (fold_left Nat.max l x) l).
Proof.
  revert x. induction l as [|y l IH]; intros x; simpl.
  - split; [lia | left; reflexivity].
  - destruct (IH (Nat.max x y)) as [H1 H2]. split; [lia|].
    destruct H2 as [H2|H2]; [|right; right; exact H2].
    rewrite H2. destruct (Nat.max_spec x y) as [[_ ->]|[_ ->]]; auto.
Qed.

Lemma max_In (l : list nat) (m : nat) : Py.max l = Some m -> In m l.
Proof.
  destruct l as [|x r]; simpl; [discriminate|].
  intros [= <-]. destruct (fold_max_ge r x) as [_ [->|H]]; auto.
Qed.

Lemma mapM_Some {A B} (f : A -> option B) (l : list A) (bs : list B) :
  mapM f l = Some bs ->
  length bs = length l /\
  forall i a, nth_error l i = Some a ->
              exists b, nth_error bs i = Some b /\ f a = Some b.
Proof.
  revert bs. induction l as [|a r IH]; simpl; intros bs H.
  - injection H as <-. split; [reflexivity|]. intros [|i] a; discriminate.
  - destruct (f a) as [b|] eqn:Ea; simpl in H; [|discriminate].
    destruct (mapM f r) as [bs'|] eqn:Er; simpl in H; [|discriminate].
    injection H as <-. destruct (IH bs' eq_refl) as [Hlen Hnth].
    split; [simpl; congruence|].
    intros [|i] a' Hi; simpl in Hi.
    + injection Hi as <-. exists b. auto.
    + apply Hnth, Hi.
Qed.

Lemma mapM_In {A B} (f : A -> option B) (l : list A) (bs : list B) :
  mapM f l = Some bs ->
  (forall b, In b bs -> exists a, In a l /\ f a = Some b) /\
  (forall a, In a l -> exists b, In b bs /\ f a = Some b).
Proof.
  revert bs. induction l as [|a r IH]; simpl; intros bs H.
  - injection H as <-. split; intros ? [].
  - destruct (f a) as [b|] eqn:Ea; simpl in H; [|discriminate].
    destruct (mapM f r) as [bs'|] eqn:Er; simpl in H; [|discriminate].
    injection H as <-. destruct (IH bs' eq_refl) as [H1 H2]. split.
    + intros b' [<-|Hb]; [exists a; auto|].
      destruct (H1 _ Hb) as (a' & ? & ?). exists a'. auto.
    + intros a' [<-|Ha]; [exists b; simpl; auto|].
      destruct (H2 _ Ha) as (b' & ? & ?). exists b'. simpl. auto.
Qed.

Lemma mapM_total {A B} (f : A -> option B) (l : list A) :
  (forall a, In a l -> exists b, f a = Some b) ->
  exists bs, mapM f l = Some bs.
Proof.
  induction l as [|a r IH]; simpl; intros H.
  - eauto.
  - destruct (H a (or_introl eq_refl)) as [b ->]. simpl.
    destruct IH as [bs ->]; [auto|]. simpl. eauto.
Qed.

Lemma str_eqb_eq (a b : str) : str_eqb a b = true <-> a = b.
Proof.
  revert b. induction a as [|x a IH]; intros [|y b]; simpl;
    try (split; congruence).
  rewrite andb_true_iff, Ascii.eqb_eq, IH. split.
  - intros [-> ->]. reflexivity.
  - intros [= -> ->]. auto.
Qed.

Lemma nth_error_combine_seq {A} (l : list A) (a i : nat) :
  nth_error (combine (seq a (length l)) l) i
  = option_map (fun y => ((a + i)%nat, y)) (nth_error l i).
Proof.
  revert a i. induction l as [|x l IH]; intros a [|i]; simpl; auto.
  - rewrite Nat.add_0_r. reflexivity.
  - rewrite IH. rewrite <- plus_n_Sm. reflexivity.
Qed.

Lemma In_combine_seq {A} (l : list A) (i : nat) (x : A) :
  In (i, x) (combine (seq 0 (length l)) l) -> nth_error l i = Some x.
Proof.
  intros H. apply In_nth_error in H. destruct H as [j Hj].
  rewrite nth_error_combine_seq in Hj.
  destruct (nth_error l j) as [y|] eqn:Ey; simpl in Hj; [|discriminate].
  injection Hj as <- <-. exact Ey.
Qed.

Lemma fold_left_invariant {A B} (f : A -> B -> A) (P : A -> Prop) (l : list B) :
  (forall a b, In b l -> P a -> P (f a b)) ->
  forall a, P a -> P (fold_left f l a).
Proof.
  induction l as [|b l IH]; simpl; intros Hf a Ha; [exact Ha|].
  apply IH; auto.
Qed.

(* ================================================================== *)
(** * Outline extraction: the loop body                                *)
(* ================================================================== *)

Section OutlineFacts.

Import Challenge_1a.

Lemma map_cluster_lt (size : Q) (centers : list Q) (i : nat) :
  map_cluster size centers = Some i -> (i < length centers)%nat.
Proof.
  unfold map_cluster. intros H.
  destruct centers as [|c r]; [discriminate|].
  destruct (@argmin_spec (map (fun c => Qabs (size - c)) (c :: r)))
    as (j & Hj & Hlt & _); [discriminate|].
  rewrite length_map in Hlt. congruence.
Qed.

Lemma filter_line_inv doc centers tp k group text max_c :
  filter_line doc centers tp k group = Some (Some (text, max_c)) ->
  text = merged_text group /\
  (exists pg, load_page doc (fst k) = Some pg /\
              Qltb (snd k) 30 = false /\
              Qltb (rect_height pg - 30) (snd k) = false) /\
  (length (get_pages tp text) <= 2)%nat /\
  exists idxs,
    mapM (fun s => map_cluster (s_size s) centers)
         (sorted Qle_bool (fun s => bx0 (s_bbox s)) group) = Some idxs /\
    Py.max idxs = Some max_c /\
    existsb (Nat.eqb 0) idxs = false /\
    (2 <= max_c)%nat.
Proof.
  unfold filter_line, merged_text. destruct k as [pno y0]. simpl fst. simpl snd.
  destruct (load_page doc pno) as [pg|]; cbn [bind]; [|discriminate].
  destruct (Qltb y0 30 || Qltb (rect_height pg - 30) y0) eqn:Em; [discriminate|].
  apply orb_false_iff in Em. destruct Em as [Em1 Em2].
  set (g := sorted Qle_bool (fun s => bx0 (s_bbox s)) group).
  set (t := join " " (map s_text g)).
  destruct (2 <? length (get_pages tp t))%nat eqn:E1; [discriminate|].
  destruct (fullmatch_number_dot t); [discriminate|].
  destruct (5 <? length g)%nat; [discriminate|].
  destruct (fullmatch_number t); [discriminate|].
  destruct (mapM (fun s => map_cluster (s_size s) centers) g) as [idxs|];
    cbn [bind]; [|discriminate].
  destruct (Py.max idxs) as [m|] eqn:Emax; cbn [bind]; [|discriminate].
  destruct (existsb (Nat.eqb 0) idxs) eqn:E0.
  - destruct (negb (forallb is_styled (map s_font g))); discriminate.
  - destruct (m <? 2)%nat eqn:E2; [discriminate|].
    intros [= <- <-]. apply Nat.ltb_ge in E1, E2.
    repeat split; auto.
    + exists pg. auto.
    + exists idxs. auto.
Qed.

Lemma filter_line_max_c doc centers tp k group text max_c :
  filter_line doc centers tp k group = Some (Some (text, max_c)) ->
  (2 <= max_c < length centers)%nat.
Proof.
  intros H. apply filter_line_inv in H.
  destruct H as (_ & _ & _ & idxs & Hm & Hmax & _ & H2).
  split; [exact H2|].
  apply max_In in Hmax. apply mapM_In in Hm. destruct Hm as [Hm _].
  destruct (Hm _ Hmax) as (s & _ & Hs). eapply map_cluster_lt, Hs.
Qed.

Lemma filter_line_no_level0 doc centers tp k group text max_c :
  filter_line doc centers tp k group = Some (Some (text, max_c)) ->
  forall s, In s group ->
  exists i, map_cluster (s_size s) centers = Some i /\ (1 <= i)%nat.
Proof.
  intros H s Hs. apply filter_line_inv in H.
  destruct H as (_ & _ & _ & idxs & Hm & _ & H0 & _).
  apply mapM_In in Hm. destruct Hm as [_ Hm].
  destruct (Hm s) as (i & Hi & Hsi); [apply sorted_In, Hs|].
  exists i. split; [exact Hsi|].
  destruct i as [|i]; [|lia].
  exfalso. assert (existsb (Nat.eqb 0) idxs = true); [|congruence].
  apply existsb_exists. exists 0%nat. auto.
Qed.

Lemma process_line_inv doc centers tp k group h :
  process_line doc centers tp k group = Some (Some h) ->
  exists text max_c,
    filter_line doc centers tp k group = Some (Some (text, max_c)) /\
    assign_level centers max_c text = Some (h_level h) /\
    h_page h = (fst k + 1)%nat /\ h_y h = snd k /\
    h_text h = text ++ lit " ".
Proof.
  unfold process_line.
  destruct (filter_line doc centers tp k group) as [[[text max_c]|]|];
    simpl; try discriminate.
  destruct (assign_level centers max_c text) as [level|] eqn:El; simpl;
    [|discriminate].
  intros [= <-]. exists text, max_c. cbn. repeat split; auto.
Qed.

Lemma collect_headings_inv doc centers tp lines hs :
  collect_headings doc centers tp lines = Some hs ->
  (forall h, In h hs ->
     exists k group, In (k, group) lines /\
                     process_line doc centers tp k group = Some (Some h)) /\
  (forall k group, In (k, group) lines ->
     exists oh, process_line doc centers tp k group = Some oh /\
                forall h, oh = Some h -> In h hs).
Proof.
  revert hs. induction lines as [|[k group] r IH]; simpl; intros hs H.
  - injection H as <-. split; intros; contradiction.
  - destruct (process_line doc centers tp k group) as [oh|] eqn:Ep; simpl in H;
      [|discriminate].
    destruct (collect_headings doc centers tp r) as [hs'|]; simpl in H;
      [|discriminate].
    injection H as <-. destruct (IH hs' eq_refl) as [IH1 IH2]. split.
    + intros h Hh.
      assert (Hcase : oh = Some h \/ In h hs').
      { destruct oh as [h'|]; [destruct Hh as [->|]|]; auto. }
      destruct Hcase as [->|Hin].
      * exists k, group. auto.
      * destruct (IH1 h Hin) as (k' & g' & ? & ?). exists k', g'. auto.
    + intros k' g' [[= <- <-]|Hin].
      * exists oh. split; [exact Ep|]. intros h ->. left. reflexivity.
      * destruct (IH2 k' g' Hin) as (oh' & ? & Hoh). exists oh'.
        split; [assumption|]. intros h Hh.
        destruct oh; [right|]; apply Hoh, Hh.
Qed.

Lemma extract_outline_inv RNG (KM : option Z -> RNG -> nat -> list Q -> list Q)
    g doc title outline :
  extract_outline KM g doc = Some (title, outline) ->
  exists headings,
    sorted_headings KM g doc = Some headings /\
    title = title_of (title_entries headings) /\
    outline = map entry_of (remove_title_entries headings).
Proof.
  unfold extract_outline.
  destruct (extract_spans doc) as [|s r] eqn:Es.
  - intros [= <- <-]. exists []. unfold sorted_headings. rewrite Es. auto.
  - destruct (sorted_headings KM g doc) as [hs|]; simpl; [|discriminate].
    intros [= <- <-]. exists hs. auto.
Qed.

Lemma sorted_headings_inv RNG (KM : option Z -> RNG -> nat -> list Q -> list Q)
    g doc headings :
  sorted_headings KM g doc = Some headings ->
  exists hs,
    collect_headings doc
      (cluster_font_sizes KM g (map s_size (extract_spans doc)) 4)
      (build_text_pages (extract_spans doc))
      (group_lines (extract_spans doc)) = Some hs /\
    headings = sorted pair_leb (fun h => (h_page h, h_y h)) hs.
Proof.
  unfold sorted_headings.
  destruct (collect_headings _ _ _ _) as [hs|]; simpl; [|discriminate].
  intros [= <-]. exists hs. auto.
Qed.

Lemma remove_title_entries_In headings h :
  In h (remove_title_entries headings) ->
  In h headings.
Proof. unfold remove_title_entries. intros H. apply filter_In in H. tauto. Qed.

Lemma is_p1_h1_spec h :
  is_p1_h1 h = true <-> h_page h = 1%nat /\ h_level h = lit "H1".
Proof.
  unfold is_p1_h1. rewrite andb_true_iff, Nat.eqb_eq, str_eqb_eq. tauto.
Qed.

Lemma in_title_set_spec p1_h1 h :
  in_title_set p1_h1 h = true <->
  exists t, In t p1_h1 /\ h_text t = h_text h.
Proof.
  unfold in_title_set. rewrite existsb_exists. split.
  - intros (x & Hx & Heq). apply in_map_iff in Hx.
    destruct Hx as (t & <- & Ht). apply str_eqb_eq in Heq. eauto.
  - intros (t & Ht & Heq). exists (h_text t). split.
    + apply in_map, Ht.
    + apply str_eqb_eq. auto.
Qed.

End OutlineFacts.

(* ================================================================== *)
(** * Outline extraction returns                                       *)
(* ================================================================== *)

Section OutlineTotal.

Import Challenge_1a.

Lemma line_to_spans_pno pno line s :
  In s (line_to_spans pno line) -> s_pno s = pno.
Proof.
  unfold line_to_spans. intros H. apply in_flat_map in H.
  destruct H as (sp & _ & H).
  destruct (strip (span_text sp)); simpl in H; [contradiction|].
  destruct H as [<-|[]]. reflexivity.
Qed.

Lemma page_to_spans_pno pno pg s :
  In s (page_to_spans pno pg) -> s_pno s = pno.
Proof.
  unfold page_to_spans. intros H. apply in_flat_map in H.
  destruct H as (b & _ & H).
  destruct (negb (block_type b =? 0)%Z); [contradiction|].
  apply in_flat_map in H. destruct H as (line & _ & H).
  eapply line_to_spans_pno, H.
Qed.

Lemma extract_spans_page doc s :
  In s (extract_spans doc) -> exists pg, load_page doc (s_pno s) = Some pg.
Proof.
  unfold extract_spans, page_count, load_page. intros H.
  apply in_flat_map in H. destruct H as ([pno pg] & Hin & Hs).
  apply page_to_spans_pno in Hs. subst pno.
  exists pg. apply In_combine_seq, Hin.
Qed.

Lemma setdefault_append_well_grouped spans lines s :
  In s spans -> well_grouped spans lines ->
  well_grouped spans (setdefault_append lines (s_pno s, s_y0 s) s).
Proof.
  intros Hs. induction lines as [|[k' g'] r IH]; intros Hw k g; simpl.
  - intros [[= <- <-]|[]]. split; [discriminate|].
    intros s' [<-|[]]. auto.
  - destruct (key_eqb k' (s_pno s, s_y0 s)) eqn:E.
    + intros [[= <- <-]|Hin].
      * split; [destruct g'; discriminate|].
        intros s' Hs'. apply in_app_or in Hs'. destruct Hs' as [Hs'|[<-|[]]].
        -- apply (Hw k' g'); simpl; auto.
        -- split; [exact Hs|].
           unfold key_eqb in E. apply andb_true_iff in E. destruct E as [E _].
           apply Nat.eqb_eq in E. simpl in E. auto.
      * apply Hw. right. exact Hin.
    + intros [[= <- <-]|Hin].
      * apply Hw. left. reflexivity.
      * apply IH; [|exact Hin]. intros k0 g0 H0. apply Hw. right. exact H0.
Qed.

Lemma group_lines_well_grouped spans :
  well_grouped spans (group_lines spans).
Proof.
  unfold group_lines.
  apply (@fold_left_invariant _ _
           (fun lines s => setdefault_append lines (s_pno s, s_y0 s) s)
           (well_grouped spans)).
  - intros lines s Hs Hw. apply setdefault_append_well_grouped; assumption.
  - intros k g [].
Qed.

Lemma count_unique_pos (sizes : list Q) :
  sizes <> [] -> (1 <= count_unique sizes)%nat.
Proof.
  induction sizes as [|x r IH]; [congruence|]. intros _. simpl.
  destruct (existsb (Qeq_bool x) r) eqn:E; [|lia].
  apply IH. intros ->. discriminate.
Qed.

Lemma map_cluster_total (size : Q) (centers : list Q) :
  centers <> [] -> exists i, map_cluster size centers = Some i.
Proof.
  intros H. unfold map_cluster.
  destruct (@argmin_spec (map (fun c => Qabs (size - c)) centers))
    as (i & Hi & _).
  - destruct centers; [congruence | discriminate].
  - eauto.
Qed.

(** The level of a line with [2 <= max_c], for at most four centers. *)
Lemma assign_level_small centers max_c text :
  (2 <= max_c < length centers)%nat -> (length centers <= 4)%nat ->
  (1 <= base_depth centers max_c <= 2)%Z /\
  assign_level centers max_c text
  = Some (level_of_depth
            (if is_numbered text && negb (base_depth centers max_c =? 1)%Z
             then (base_depth centers max_c - 1)%Z
             else base_depth centers max_c)).
Proof.
  intros Hm Hlen.
  assert (Hd : base_depth centers max_c = 1%Z \/ base_depth centers max_c = 2%Z)
    by (unfold base_depth; lia).
  unfold assign_level, base_level.
  destruct Hd as [Hd|Hd]; rewrite Hd; destruct (is_numbered text);
    (split; [lia | reflexivity]).
Qed.

Lemma filter_line_total doc centers tp k group pg :
  load_page doc (fst k) = Some pg -> centers <> [] -> group <> [] ->
  exists r, filter_line doc centers tp k group = Some r.
Proof.
  intros Hpg Hc Hg. unfold filter_line. destruct k as [pno y0].
  simpl in Hpg. rewrite Hpg. cbn [bind].
  destruct (Qltb y0 30 || Qltb (rect_height pg - 30) y0); [eauto|].
  set (g := sorted Qle_bool (fun s => bx0 (s_bbox s)) group).
  set (t := join " " (map s_text g)).
  destruct (2 <? length (get_pages tp t))%nat; [eauto|].
  destruct (fullmatch_number_dot t); [eauto|].
  destruct (5 <? length g)%nat; [eauto|].
  destruct (fullmatch_number t); [eauto|].
  destruct (@mapM_total _ _ (fun s => map_cluster (s_size s) centers) g)
    as [idxs Hi].
  { intros s _. apply map_cluster_total, Hc. }
  rewrite Hi. cbn [bind].
  assert (Hlen : length idxs = length group).
  { apply mapM_Some in Hi. destruct Hi as [-> _]. apply sorted_length. }
  destruct idxs as [|i idxs'].
  { destruct group; [congruence | discriminate]. }
  cbn [Py.max bind].
  destruct (existsb (Nat.eqb 0) (i :: idxs')).
  - destruct (negb (forallb is_styled (map s_font g)));
      eexists; reflexivity.
  - destruct (fold_left Nat.max idxs' i <? 2)%nat; eexists; reflexivity.
Qed.

Lemma process_line_total doc centers tp k group pg :
  load_page doc (fst k) = Some pg -> centers <> [] ->
  (length centers <= 4)%nat -> group <> [] ->
  exists oh, process_line doc centers tp k group = Some oh.
Proof.
  intros Hpg Hc Hlen Hg.
  destruct (filter_line_total doc tp k Hpg Hc Hg) as [r Hr].
  unfold process_line. rewrite Hr. cbn [bind].
  destruct r as [[text max_c]|]; [|eauto].
  destruct (@assign_level_small centers max_c text) as [_ ->]; auto.
  - eapply filter_line_max_c, Hr.
  - cbn [bind]. eauto.
Qed.

Lemma collect_headings_total doc centers tp spans lines :
  centers <> [] -> (length centers <= 4)%nat ->
  (forall s, In s spans -> exists pg, load_page doc (s_pno s) = Some pg) ->
  well_grouped spans lines ->
  exists hs, collect_headings doc centers tp lines = Some hs.
Proof.
  intros Hc Hlen Hpg. induction lines as [|[k g] r IH]; intros Hw; simpl.
  - eauto.
  - destruct (Hw k g) as [Hne Hg]; [left; reflexivity|].
    assert (Hk : exists pg, load_page doc (fst k) = Some pg).
    { destruct g as [|s g']; [congruence|].
      destruct (Hg s) as [Hs <-]; [left; reflexivity|]. apply Hpg, Hs. }
    destruct Hk as [pg Hk].
    destruct (process_line_total doc tp k Hk Hc Hlen Hne) as [oh ->].
    cbn [bind]. destruct IH as [hs ->].
    + intros k0 g0 H0. apply Hw. right. exact H0.
    + cbn [bind]. eauto.
Qed.

(** Under the contract of the library, that a fit with [n] clusters has [n]
    centers, the extraction returns a title and an outline. *)
Lemma extract_outline_total
    RNG (KM : option Z -> RNG -> nat -> list Q -> list Q) g doc :
  (forall rs g n X, length (KM rs g n X) = n) ->
  exists title outline, extract_outline KM g doc = Some (title, outline).
Proof.
  intros Hn. unfold extract_outline.
  destruct (extract_spans doc) as [|s0 r0] eqn:Es; [eauto|].
  unfold sorted_headings. rewrite Es.
  set (spans := s0 :: r0).
  set (centers := cluster_font_sizes KM g (map s_size spans) 4).
  assert (Hlen : (1 <= length centers <= 4)%nat).
  { unfold centers, cluster_font_sizes.
    pose proof (@count_unique_pos (map s_size spans)) as Hu.
    destruct (count_unique (map s_size spans) <? 4)%nat eqn:E.
    - apply Nat.ltb_lt in E.
      destruct (count_unique (map s_size spans) =? 0)%nat eqn:E0.
      + apply Nat.eqb_eq in E0. assert (map s_size spans <> []) by discriminate.
        apply Hu in H. lia.
      + rewrite sorted_length, Hn. apply Nat.eqb_neq in E0. lia.
    - simpl. rewrite sorted_length, Hn. lia. }
  destruct (@collect_headings_total doc centers (build_text_pages spans)
              spans (group_lines spans)) as [hs ->].
  - intros ->. simpl in Hlen. lia.
  - lia.
  - intros s Hs. apply extract_spans_page. rewrite Es. exact Hs.
  - apply group_lines_well_grouped.
  - cbn [bind]. eauto.
Qed.

End OutlineTotal.

(* ================================================================== *)
(** * Outline extraction: the stated properties                        *)
(* ================================================================== *)

Section OutlineClaims.

Import Challenge_1a Samples.




(** The tie of the witness is resolved towards the lower index. *)
Example map_cluster_tie : map_cluster 13 [10; 12; 14; 20] = Some 1%nat.
Proof. reflexivity. Qed.

(** C7.  A document without fragments gives the empty title and the empty
    outline, whatever the state of the random generator: a second call
    returns the same. *)
Theorem C7_no_fragments_empty_title_and_outline
    RNG (KM : option Z -> RNG -> nat -> list Q -> list Q) (g g' : RNG)
    (doc : Document) :
  extract_spans doc = [] ->
  extract_outline KM g doc = Some (empty, []) /\
  extract_outline KM g' doc = extract_outline KM g doc.
Proof.
  intros H. unfold extract_outline. rewrite H. split; reflexivity.
Qed.

Lemma C7_witness_blank_document :
  extract_spans doc_blank = [] /\
  extract_outline exact_KMeans true doc_blank = Some (empty, []) /\
  extract_outline exact_KMeans false doc_blank
  = extract_outline exact_KMeans true doc_blank.
Proof.
  split; [reflexivity|].
  apply (@C7_no_fragments_empty_title_and_outline
           bool exact_KMeans true false doc_blank).
  reflexivity.
Defined.

(** C1, as the code has it.  A line that passes the filters becomes a
    heading; with at most four centers its base depth is 1 or 2; a numbered
    line below the top depth is emitted one level up (depth minus one, so
    [H2] becomes [H1]); a line at the top depth and a line without numbering
    keep the base depth. *)
Theorem C1_numbered_line_one_level_up
    doc centers tp k group text max_c :
  (length centers <= 4)%nat ->
  filter_line doc centers tp k group = Some (Some (text, max_c)) ->
  exists h,
    process_line doc centers tp k group = Some (Some h) /\
    h_text h = text ++ lit " " /\
    (1 <= base_depth centers max_c <= 2)%Z /\
    h_level h =
      level_of_depth
        (if is_numbered text && negb (base_depth centers max_c =? 1)%Z
         then (base_depth centers max_c - 1)%Z
         else base_depth centers max_c).
Proof.
  intros Hlen Hf. pose proof Hf as Hm. apply filter_line_max_c in Hm.
  destruct (@assign_level_small centers max_c text Hm Hlen) as [Hd Ha].
  unfold process_line. rewrite Hf. cbn [bind]. rewrite Ha. cbn [bind].
  eexists. split; [reflexivity|]. repeat split; try reflexivity; lia.
Qed.

Lemma C1_witness_numbered_scope_line :
  (length four_centers <= 4)%nat /\
  filter_line doc_numbered four_centers
    (build_text_pages (extract_spans doc_numbered))
    (0%nat, round1 150) numbered_group
  = Some (Some (lit "1.1 Scope", 2%nat)) /\
  exists h,
    process_line doc_numbered four_centers
      (build_text_pages (extract_spans doc_numbered))
      (0%nat, round1 150) numbered_group = Some (Some h) /\
    h_text h = lit "1.1 Scope" ++ lit " " /\
    (1 <= base_depth four_centers 2 <= 2)%Z /\
    h_level h =
      level_of_depth
        (if is_numbered "1.1 Scope"
            && negb (base_depth four_centers 2 =? 1)%Z
         then (base_depth four_centers 2 - 1)%Z
         else base_depth four_centers 2).
Proof.
  split; [unfold four_centers; simpl; lia|]. split; [vm_compute; reflexivity|].
  apply (@C1_numbered_line_one_level_up doc_numbered four_centers
           (build_text_pages (extract_spans doc_numbered))
           (0%nat, round1 150) numbered_group (lit "1.1 Scope") 2%nat).
  - unfold four_centers; simpl; lia.
  - vm_compute; reflexivity.
Defined.

(** C1, as stated, fails: the numbered line "1.1 Scope" of [doc_numbered]
    passes the filters with base level [H2] and is emitted at [H1], not one
    level deeper. *)
Lemma C1_counterexample_numbered_line_promoted :
  let centers :=
    cluster_font_sizes exact_KMeans true
      (map s_size (extract_spans doc_numbered)) 4 in
  let tp := build_text_pages (extract_spans doc_numbered) in
  let k := (0%nat, round1 150) in
  In (k, numbered_group) (group_lines (extract_spans doc_numbered)) /\
  filter_line doc_numbered centers tp k numbered_group
  = Some (Some (lit "1.1 Scope", 2%nat)) /\
  is_numbered "1.1 Scope" = true /\
  base_level centers 2 = lit "H2" /\
  process_line doc_numbered centers tp k numbered_group
  = Some (Some {| h_page := 1; h_y := round1 150;
                  h_level := "H1"; h_text := "1.1 Scope " |}) /\
  lit "H1" <> level_of_depth (base_depth centers 2 + 1).
Proof.
  cbv zeta. repeat split; try (vm_compute; reflexivity).
  - vm_compute. right. left. reflexivity.
  - vm_compute. discriminate.
Qed.

(** C2, on the failing input.  In [doc_repeated] the line "Annual Report",
    merged from two spans, stands on three pages, and is nevertheless
    emitted for pages 2 and 3 (the one of page 1 went into the title):
    [text_pages] knows the texts of the spans, not of the merged lines. *)
Lemma C2_repeated_merged_line_emitted :
  line_text_pages doc_repeated "Annual Report" = [0; 1; 2]%nat /\
  get_pages (build_text_pages (extract_spans doc_repeated)) "Annual Report"
  = [] /\
  extract_outline exact_KMeans true doc_repeated
  = Some (lit "Annual Report",
          [ {| o_level := "H1"; o_text := "Annual Report "; o_page := 2 |};
            {| o_level := "H1"; o_text := "Annual Report "; o_page := 3 |} ]).
Proof. repeat split; vm_compute; reflexivity. Qed.

(** A line of one span is filtered as the rule says: its text is a key of
    [text_pages]. *)
Lemma single_span_line_text_pages doc centers tp k s text max_c :
  filter_line doc centers tp k [s] = Some (Some (text, max_c)) ->
  text = s_text s /\ (length (get_pages tp (s_text s)) <= 2)%nat.
Proof.
  intros H. apply filter_line_inv in H.
  destruct H as (Ht & _ & Hp & _).
  unfold merged_text in Ht. simpl in Ht. subst text. auto.
Qed.

(** C3, as the code has it.  The title is made of at most two headings, all
    of page 1 and level [H1], in the order of their vertical position; the
    outline is the sorted heading list without every heading of page 1 and
    level [H1] whose text is the text of a title heading, and nothing else
    is removed. *)
Theorem C3_title_entries_and_removal_by_text
    RNG (KM : option Z -> RNG -> nat -> list Q -> list Q) g doc title outline :
  extract_outline KM g doc = Some (title, outline) ->
  exists headings,
    sorted_headings KM g doc = Some headings /\
    title = title_of (title_entries headings) /\
    outline = map entry_of (remove_title_entries headings) /\
    (length (title_entries headings) <= 2)%nat /\
    (forall h, In h (title_entries headings) ->
       In h headings /\ h_page h = 1%nat /\ h_level h = lit "H1") /\
    StronglySorted (fun a b => h_y a <= h_y b) (title_entries headings) /\
    (forall h, In h (remove_title_entries headings) <->
       In h headings /\
       ~ (h_page h = 1%nat /\ h_level h = lit "H1" /\
          exists t, In t (title_entries headings) /\ h_text t = h_text h)).
Proof.
  intros H. destruct (extract_outline_inv _ _ _ H) as (hs & Hs & Ht & Ho).
  exists hs. repeat split; auto.
  - apply firstn_le_length.
  - apply firstn_In, sorted_In, filter_In in H0. tauto.
  - apply firstn_In, sorted_In, filter_In in H0.
    destruct H0 as [_ H0]. apply is_p1_h1_spec in H0. tauto.
  - apply firstn_In, sorted_In, filter_In in H0.
    destruct H0 as [_ H0]. apply is_p1_h1_spec in H0. tauto.
  - unfold title_entries. apply StronglySorted_firstn.
    eapply StronglySorted_weaken;
      [| apply sorted_StronglySorted;
         [apply Qle_bool_total | apply Qle_bool_trans]].
    intros a b Hab. apply Qle_bool_iff, Hab.
  - apply remove_title_entries_In, H0.
  - unfold remove_title_entries in H0. apply filter_In in H0.
    destruct H0 as [_ H0]. apply negb_true_iff, andb_false_iff in H0.
    intros (Hp & Hl & Hex).
    destruct H0 as [H0|H0].
    + assert (is_p1_h1 h = true) by (apply is_p1_h1_spec; auto). congruence.
    + assert (in_title_set (title_entries hs) h = true)
        by (apply in_title_set_spec; auto).
      congruence.
  - intros [Hin Hnot]. unfold remove_title_entries. apply filter_In.
    split; [exact Hin|]. apply negb_true_iff, not_true_is_false.
    intros Hb. apply andb_true_iff in Hb. destruct Hb as [Hb1 Hb2].
    apply is_p1_h1_spec in Hb1. apply in_title_set_spec in Hb2.
    apply Hnot. tauto.
Qed.

Lemma C3_witness_title_of_doc_title :
  extract_outline exact_KMeans true doc_title = Some (lit "Notes Part One", []) /\
  exists headings,
    sorted_headings exact_KMeans true doc_title = Some headings /\
    lit "Notes Part One" = title_of (title_entries headings) /\
    [] = map entry_of (remove_title_entries headings) /\
    (length (title_entries headings) <= 2)%nat /\
    (forall h, In h (title_entries headings) ->
       In h headings /\ h_page h = 1%nat /\ h_level h = lit "H1") /\
    StronglySorted (fun a b => h_y a <= h_y b) (title_entries headings) /\
    (forall h, In h (remove_title_entries headings) <->
       In h headings /\
       ~ (h_page h = 1%nat /\ h_level h = lit "H1" /\
          exists t, In t (title_entries headings) /\ h_text t = h_text h)).
Proof.
  split; [vm_compute; reflexivity|].
  apply (@C3_title_entries_and_removal_by_text
           bool exact_KMeans true doc_title (lit "Notes Part One") []).
  vm_compute; reflexivity.
Defined.

(** C3, as stated, fails: the third heading of [doc_title] is not one of the
    two title headings, it only has the page, the level and the text of the
    first one, and it is removed from the outline with them. *)
Lemma C3_counterexample_same_text_heading_removed :
  exists headings,
    sorted_headings exact_KMeans true doc_title = Some headings /\
    In second_notes headings /\
    ~ In second_notes (title_entries headings) /\
    ~ In second_notes (remove_title_entries headings) /\
    extract_outline exact_KMeans true doc_title
    = Some (lit "Notes Part One", []).
Proof.
  eexists. split; [vm_compute; reflexivity|]. repeat split.
  - vm_compute. right. right. left. reflexivity.
  - vm_compute. intros [H|[H|[]]]; discriminate H.
  - vm_compute. intros [].
Qed.

End OutlineClaims.

Section OutlineOrder.

Import Challenge_1a Samples.

Variable RNG : Type.
Variable KM : option Z -> RNG -> nat -> list Q -> list Q.

Lemma cluster_font_sizes_seeded :
  seeded_fit_is_deterministic KM ->
  forall g g' sizes n,
    cluster_font_sizes KM g sizes n = cluster_font_sizes KM g' sizes n.
Proof.
  intros H g g' sizes n. unfold cluster_font_sizes.
  rewrite (H 42%Z g g'). reflexivity.
Qed.

Lemma extract_outline_seeded :
  seeded_fit_is_deterministic KM ->
  forall g g' doc, extract_outline KM g doc = extract_outline KM g' doc.
Proof.
  intros H g g' doc. unfold extract_outline, sorted_headings.
  rewrite (cluster_font_sizes_seeded H g g'). reflexivity.
Qed.

Lemma sorted_headings_in_order g doc headings :
  sorted_headings KM g doc = Some headings ->
  StronglySorted position_le headings.
Proof.
  intros H. apply sorted_headings_inv in H. destruct H as (hs & _ & ->).
  eapply StronglySorted_weaken;
    [| apply sorted_StronglySorted;
       [apply pair_leb_total | apply pair_leb_trans]].
  intros a b Hab. apply pair_leb_spec in Hab. exact Hab.
Qed.

End OutlineOrder.

Section OutlineClaims2.

Import Challenge_1a Samples.

(** C4.  The outline is the projection of a heading list that is in
    document order (page, then vertical position, ascending), so that its
    pages never decrease; and when the seeded fit does not depend on the
    ambient random generator, a run from any other generator state returns
    the same title and outline. *)
Theorem C4_outline_in_document_order_and_reproducible
    RNG (KM : option Z -> RNG -> nat -> list Q -> list Q) g doc title outline :
  seeded_fit_is_deterministic KM ->
  extract_outline KM g doc = Some (title, outline) ->
  (exists headings,
     sorted_headings KM g doc = Some headings /\
     outline = map entry_of (remove_title_entries headings) /\
     StronglySorted position_le (remove_title_entries headings)) /\
  StronglySorted (fun a b => (o_page a <= o_page b)%nat) outline /\
  (forall g', extract_outline KM g' doc = Some (title, outline)).
Proof.
  intros Hseed H.
  destruct (extract_outline_inv _ _ _ H) as (hs & Hs & _ & Ho).
  assert (Hsorted : StronglySorted position_le (remove_title_entries hs)).
  { unfold remove_title_entries. apply StronglySorted_filter.
    eapply sorted_headings_in_order, Hs. }
  repeat split.
  - exists hs. auto.
  - subst outline. eapply StronglySorted_map; [|exact Hsorted].
    intros a b [Hlt|[Heq _]]; simpl; lia.
  - intros g'. rewrite (extract_outline_seeded Hseed g' g). exact H.
Qed.

Lemma exact_KMeans_seeded : seeded_fit_is_deterministic exact_KMeans.
Proof. intros seed g1 g2 n X. reflexivity. Defined.

Lemma C4_witness_outline_of_doc_numbered :
  seeded_fit_is_deterministic exact_KMeans /\
  extract_outline exact_KMeans true doc_numbered
  = Some (lit "Overview 1.1 Scope",
          [ {| o_level := "H2"; o_text := "Details "; o_page := 1 |} ]) /\
  (exists headings,
     sorted_headings exact_KMeans true doc_numbered = Some headings /\
     [ {| o_level := "H2"; o_text := "Details "; o_page := 1 |} ]
     = map entry_of (remove_title_entries headings) /\
     StronglySorted position_le (remove_title_entries headings)) /\
  StronglySorted (fun a b => (o_page a <= o_page b)%nat)
    [ {| o_level := "H2"; o_text := "Details "; o_page := 1 |} ] /\
  (forall g', extract_outline exact_KMeans g' doc_numbered
              = Some (lit "Overview 1.1 Scope",
                      [ {| o_level := "H2"; o_text := "Details ";
                           o_page := 1 |} ])).
Proof.
  split; [exact exact_KMeans_seeded|].
  split; [vm_compute; reflexivity|].
  apply (@C4_outline_in_document_order_and_reproducible
           bool exact_KMeans true doc_numbered).
  - exact exact_KMeans_seeded.
  - vm_compute; reflexivity.
Defined.

(** C9.  Every entry of the outline comes from a line none of whose
    fragments is at font level 0; and a line with a fragment at level 0 is
    skipped by the loop, whatever its fonts (when all of them are bold or
    italic, [max_c] becomes 1 and the test [max_c < 2] rejects the line). *)
Theorem C9_no_level0_line_becomes_heading
    RNG (KM : option Z -> RNG -> nat -> list Q -> list Q) g doc title outline :
  extract_outline KM g doc = Some (title, outline) ->
  let spans := extract_spans doc in
  let centers := cluster_font_sizes KM g (map s_size spans) 4 in
  let tp := build_text_pages spans in
  (forall e, In e outline ->
     exists k group h,
       In (k, group) (group_lines spans) /\
       process_line doc centers tp k group = Some (Some h) /\
       e = entry_of h /\
       forall s, In s group ->
         exists i, map_cluster (s_size s) centers = Some i /\ (1 <= i)%nat) /\
  (forall k group s,
     In (k, group) (group_lines spans) -> In s group ->
     map_cluster (s_size s) centers = Some 0%nat ->
     process_line doc centers tp k group = Some None).
Proof.
  intros H spans centers tp.
  destruct (extract_outline_inv _ _ _ H) as (hs & Hs & _ & Ho).
  apply sorted_headings_inv in Hs. destruct Hs as (hs0 & Hc & ->).
  fold spans in Hc. fold centers in Hc. fold tp in Hc.
  destruct (collect_headings_inv _ _ _ _ Hc) as [Hfrom Hall]. split.
  - intros e He. subst outline. apply in_map_iff in He.
    destruct He as (h & <- & Hh).
    apply remove_title_entries_In, sorted_In, Hfrom in Hh.
    destruct Hh as (k & group & Hin & Hp).
    exists k, group, h. repeat split; auto.
    apply process_line_inv in Hp. destruct Hp as (text & max_c & Hf & _).
    eapply filter_line_no_level0, Hf.
  - intros k group s Hin Hs H0.
    destruct (Hall k group Hin) as ([h|] & Hp & _); [|exact Hp].
    exfalso. apply process_line_inv in Hp.
    destruct Hp as (text & max_c & Hf & _).
    destruct (filter_line_no_level0 _ _ _ _ _ Hf s Hs) as (i & Hi & Hge).
    rewrite H0 in Hi. injection Hi as <-. lia.
Qed.

Lemma C9_witness_outline_of_doc_numbered :
  extract_outline exact_KMeans true doc_numbered
  = Some (lit "Overview 1.1 Scope",
          [ {| o_level := "H2"; o_text := "Details "; o_page := 1 |} ]) /\
  let spans := extract_spans doc_numbered in
  let centers := cluster_font_sizes exact_KMeans true (map s_size spans) 4 in
  let tp := build_text_pages spans in
  (forall e,
     In e [ {| o_level := "H2"; o_text := "Details "; o_page := 1 |} ] ->
     exists k group h,
       In (k, group) (group_lines spans) /\
       process_line doc_numbered centers tp k group = Some (Some h) /\
       e = entry_of h /\
       forall s, In s group ->
         exists i, map_cluster (s_size s) centers = Some i /\ (1 <= i)%nat) /\
  (forall k group s,
     In (k, group) (group_lines spans) -> In s group ->
     map_cluster (s_size s) centers = Some 0%nat ->
     process_line doc_numbered centers tp k group = Some None).
Proof.
  split; [vm_compute; reflexivity|].
  apply (@C9_no_level0_line_becomes_heading
           bool exact_KMeans true doc_numbered (lit "Overview 1.1 Scope")).
  vm_compute; reflexivity.
Defined.

(** A line all in bold at the smallest size: skipped, by [max_c = 1]. *)
Example bold_small_line_is_skipped :
  let s := {| s_pno := 0; s_y0 := round1 200; s_text := "Some body text";
              s_size := 10; s_font := "Helvetica-Bold";
              s_bbox := {| bx0 := 50; by0 := 0; bx1 := 90; by1 := 0 |} |} in
  map_cluster (s_size s) four_centers = Some 0%nat /\
  forallb is_styled (map s_font [s]) = true /\
  process_line doc_numbered four_centers [] (0%nat, round1 200) [s] = Some None.
Proof. repeat split; vm_compute; reflexivity. Qed.

End OutlineClaims2.

(* ================================================================== *)
(** * Section segmentation: the loop                                   *)
(* ================================================================== *)

Section SegmentFacts.

Import Challenge_1b.

Lemma set_content_content (c : section) : set_content c (content c) = c.
Proof. destruct c; reflexivity. Qed.

Lemma set_content_twice (c : section) (x y : str) :
  set_content (set_content c x) y = set_content c y.
Proof. reflexivity. Qed.

Lemma body_text_cons (b : item) (body : list item) :
  body_text (b :: body) = lit " " ++ clean_text (i_text b) ++ body_text body.
Proof. reflexivity. Qed.

Lemma body_text_length (body : list item) :
  length (body_text body)
  = list_sum (map (fun b => 1 + length (clean_text (i_text b)))%nat body).
Proof.
  induction body as [|b body IH]; [reflexivity|].
  rewrite body_text_cons. simpl. rewrite length_app, IH. reflexivity.
Qed.

Lemma body_text_blank (body : list item) :
  body <> [] -> exists r, body_text body = " "%char :: r.
Proof.
  destruct body as [|b body]; [congruence|]. intros _.
  rewrite body_text_cons. simpl. eauto.
Qed.

(** The loop from a state with an open section. *)
Lemma close_fold_open (ls : list item) (secs : list section) (c : section) :
  close (fold_left step ls (secs, Some c)) = secs ++ run_open c ls.
Proof.
  revert secs c. induction ls as [|it r IH]; intros secs c; simpl.
  - reflexivity.
  - destruct (is_title_line (i_text it)).
    + rewrite IH, <- app_assoc. reflexivity.
    + apply IH.
Qed.

Lemma run_open_body (body rest : list item) (c : section) :
  Forall is_body_line body -> ends_section rest ->
  In (set_content c (content c ++ body_text body)) (run_open c (body ++ rest)).
Proof.
  intros Hb Hr. revert c. induction Hb as [|b body Hb _ IH]; intros c.
  - unfold body_text. simpl. rewrite app_nil_r, set_content_content.
    destruct rest as [|t r]; simpl.
    + auto.
    + simpl in Hr. rewrite Hr. left. reflexivity.
  - simpl. unfold is_body_line in Hb. rewrite Hb.
    specialize (IH (set_content c (content c ++ lit " " ++ clean_text (i_text b)))).
    rewrite set_content_twice in IH. simpl content in IH.
    rewrite body_text_cons.
    replace (content c ++ lit " " ++ clean_text (i_text b) ++ body_text body)
      with ((content c ++ lit " " ++ clean_text (i_text b)) ++ body_text body).
    + exact IH.
    + rewrite <- !app_assoc. reflexivity.
Qed.

Lemma run_open_title (ls : list item) (c s : section) (body : list item) :
  opened_by_title ls s body -> In s (run_open c ls).
Proof.
  intros (pre & t & rest & -> & Ht & Hb & Hr & ->). revert c.
  induction pre as [|p pre IH]; intros c; simpl.
  - rewrite Ht. right.
    exact (@run_open_body body rest
             (new_section (clean_text (i_text t)) (i_p t + 1) empty) Hb Hr).
  - destruct (is_title_line (i_text p)); [right|]; apply IH.
Qed.

Lemma run_open_inv (ls : list item) (c s : section) :
  In s (run_open c ls) ->
  (exists body rest,
      ls = body ++ rest /\ Forall is_body_line body /\ ends_section rest /\
      s = set_content c (content c ++ body_text body)) \/
  (exists body, opened_by_title ls s body).
Proof.
  revert c. induction ls as [|it r IH]; intros c; simpl.
  - intros [<-|[]]. left. exists [], []. repeat split; try constructor.
    unfold body_text. simpl. rewrite app_nil_r, set_content_content.
    reflexivity.
  - destruct (is_title_line (i_text it)) eqn:Et.
    + intros [<-|Hin].
      * left. exists [], (it :: r). repeat split; try constructor; auto.
        unfold body_text. simpl. rewrite app_nil_r, set_content_content.
        reflexivity.
      * right. apply IH in Hin.
        destruct Hin as [(body & rest & -> & Hb & Hr & ->)
                        |(body & pre & t & rest & -> & Ht & Hb & Hr & ->)].
        -- exists body, [], it, rest. repeat split; auto.
        -- exists body, (it :: pre), t, rest. repeat split; auto.
    + intros Hin. apply IH in Hin.
      destruct Hin as [(body & rest & -> & Hb & Hr & ->)
                      |(body & pre & t & rest & -> & Ht & Hb & Hr & ->)].
      * left. exists (it :: body), rest. repeat split; auto.
        rewrite set_content_twice. simpl content. rewrite body_text_cons.
        rewrite <- !app_assoc. reflexivity.
      * right. exists body, (it :: pre), t, rest. repeat split; auto.
Qed.

(** The sections of the loop are the sections of the title lines and, when
    the first line is no title, the implicit introduction. *)
Lemma segment_In (items : list item) (s : section) :
  In s (segment items) <->
  (exists body,
      opened_by_title (sorted pair_leb (fun it => (i_p it, i_y it)) items)
                      s body) \/
  implicit_introduction (sorted pair_leb (fun it => (i_p it, i_y it)) items) s.
Proof.
  unfold segment.
  destruct (sorted pair_leb (fun it => (i_p it, i_y it)) items) as [|it r].
  - simpl. split; [intros []|].
    intros [(body & pre & t & rest & H & _)|(f & body & rest & H & _)].
    + destruct pre; discriminate.
    + discriminate.
  - cbn [fold_left].
    assert (Hstep :
      step ([], None) it
      = ([], Some (if is_title_line (i_text it)
                   then new_section (clean_text (i_text it)) (i_p it + 1) empty
                   else new_section "Introduction" (i_p it + 1)
                                    (clean_text (i_text it))))).
    { unfold step. destruct (is_title_line (i_text it)); reflexivity. }
    rewrite Hstep. clear Hstep.
    destruct (is_title_line (i_text it)) eqn:Et.
    + rewrite close_fold_open. simpl app. split.
      * intros Hin. left. apply run_open_inv in Hin.
        destruct Hin as [(body & rest & -> & Hb & Hr & ->)
                        |(body & pre & t & rest & -> & Ht & Hb & Hr & ->)].
        -- exists body, [], it, rest. repeat split; auto.
        -- exists body, (it :: pre), t, rest. repeat split; auto.
      * intros [(body & pre & t & rest & H & Ht & Hb & Hr & ->)
               |(f & body & rest & H & Hf & _)].
        -- destruct pre as [|p pre]; simpl in H; injection H as <- ->.
           ++ exact (@run_open_body body rest
                       (new_section (clean_text (i_text it)) (i_p it + 1) empty)
                       Hb Hr).
           ++ apply run_open_title with (body := body). exists pre, t, rest. auto.
        -- injection H as <- _. unfold is_body_line in Hf. congruence.
    + rewrite close_fold_open. simpl app. split.
      * intros Hin. apply run_open_inv in Hin.
        destruct Hin as [(body & rest & -> & Hb & Hr & ->)
                        |(body & pre & t & rest & -> & Ht & Hb & Hr & ->)].
        -- right. exists it, body, rest. repeat split; auto.
        -- left. exists body, (it :: pre), t, rest. repeat split; auto.
      * intros [(body & pre & t & rest & H & Ht & Hb & Hr & ->)
               |(f & body & rest & H & Hf & Hb & Hr & ->)].
        -- destruct pre as [|p pre]; simpl in H; injection H as <- ->.
           ++ congruence.
           ++ apply run_open_title with (body := body). exists pre, t, rest. auto.
        -- injection H as <- ->.
           exact (@run_open_body body rest
                    (new_section "Introduction" (i_p it + 1)
                                 (clean_text (i_text it)))
                    Hb Hr).
Qed.

(** ** [strip] leaves no blank in front *)

Lemma dropwhile_head {A} (p : A -> bool) (l : list A) (x : A) (r : list A) :
  dropwhile p l = x :: r -> p x = false.
Proof.
  induction l as [|y l IH]; simpl; [discriminate|].
  destruct (p y) eqn:E; [exact IH|]. intros [= <- _]. exact E.
Qed.

Lemma dropwhile_suffix {A} (p : A -> bool) (l : list A) :
  exists pre, l = pre ++ dropwhile p l.
Proof.
  induction l as [|y l [pre IH]]; simpl.
  - exists []. reflexivity.
  - destruct (p y).
    + exists (y :: pre). simpl. congruence.
    + exists []. reflexivity.
Qed.

Lemma strip_head (s : str) (c : ascii) (r : str) :
  strip s = c :: r -> isspace c = false.
Proof.
  unfold strip, rstrip, lstrip. intros H.
  destruct (dropwhile_suffix isspace (rev (dropwhile isspace s))) as [pre Hp].
  apply (f_equal (@rev ascii)) in Hp.
  rewrite rev_involutive, rev_app_distr, H in Hp. simpl in Hp.
  eapply dropwhile_head. exact Hp.
Qed.

Lemma clean_text_head (t : str) (c : ascii) (r : str) :
  clean_text t = c :: r -> isspace c = false.
Proof. unfold clean_text. apply strip_head. Qed.

(** ** Sentences *)

Lemma split_sentences_from_ends (s cur : str) (after_end in_sep : bool) :
  (after_end = true -> ends_sentence (rev cur)) ->
  forall j p,
    nth_error (split_sentences_from cur after_end in_sep s) j = Some p ->
    (S j < length (split_sentences_from cur after_end in_sep s))%nat ->
    ends_sentence p.
Proof.
  revert cur after_end in_sep.
  induction s as [|c r IH]; intros cur ae sep Hae j p; simpl.
  - intros _ Hj. lia.
  - destruct (Ascii.eqb c " " && (ae || sep)) eqn:E.
    + destruct sep.
      * apply IH. discriminate.
      * destruct j as [|j]; simpl.
        -- intros [= <-] _. apply Hae.
           apply andb_true_iff in E. destruct E as [_ E].
           rewrite orb_false_r in E. exact E.
        -- intros Hp Hj. eapply IH; [|exact Hp|lia]. discriminate.
    + apply IH. intros Hc. exists (rev cur), c. simpl. auto.
Qed.

(** Every piece of [re.split] but the last ends with one of [.!?]. *)
Lemma split_sentences_ends (s : str) (j : nat) (p : str) :
  nth_error (split_sentences s) j = Some p ->
  (S j < length (split_sentences s))%nat ->
  ends_sentence p.
Proof. apply split_sentences_from_ends. discriminate. Qed.

(** ** Ranking *)

Lemma rank_sections_rank sims self sections persona job ranked i sec :
  rank_sections sims self sections persona job = Some ranked ->
  nth_error ranked i = Some sec ->
  importance_rank sec = Some (i + 1)%nat /\ (i < max_sections self)%nat.
Proof.
  unfold rank_sections.
  destruct (mapM _ _) as [scored|]; simpl; [|discriminate].
  intros [= <-]. rewrite nth_error_map, nth_error_combine_seq.
  rewrite nth_error_firstn.
  destruct (i <? max_sections self)%nat eqn:Ei; simpl; [|discriminate].
  destruct (nth_error _ i) as [y|]; simpl; [|discriminate].
  intros [= <-]. simpl. split.
  - f_equal. lia.
  - apply Nat.ltb_lt, Ei.
Qed.

Lemma extract_subsections_nth self ranked subs i e :
  extract_subsections self ranked = Some subs ->
  nth_error subs i = Some e ->
  (i < max_subs self)%nat /\
  exists sec, nth_error ranked i = Some sec /\ excerpt_of sec = Some e.
Proof.
  unfold extract_subsections. intros H He.
  apply mapM_Some in H. destruct H as [Hlen Hnth].
  assert (Hi : (i < length subs)%nat) by (apply nth_error_Some; congruence).
  rewrite Hlen in Hi.
  destruct (nth_error (firstn (max_subs self) ranked) i) as [sec|] eqn:Es.
  - destruct (Hnth i sec Es) as (b & Hb & Hex).
    rewrite nth_error_firstn in Es.
    destruct (i <? max_subs self)%nat eqn:Ei; [|discriminate].
    split; [apply Nat.ltb_lt, Ei|]. exists sec. split; congruence.
  - apply nth_error_None in Es. lia.
Qed.

(** ** The collection is processed to the end *)

Lemma rank_sections_total sims self sections persona job :
  (forall docs query, length (sims docs query) = length docs) ->
  exists ranked, rank_sections sims self sections persona job = Some ranked.
Proof.
  intros Hs. unfold rank_sections.
  set (scores := sims _ _).
  assert (Hlen : length scores = length sections).
  { unfold scores. rewrite Hs. apply length_map. }
  destruct (@mapM_total _ _
              (fun '(i, s) => q <- nth_error scores i ;; Some (set_score q s))
              (combine (seq 0 (length sections)) sections)) as [scored ->].
  - intros [i s] Hin. apply in_combine_l, in_seq in Hin.
    destruct (nth_error scores i) as [q|] eqn:Eq.
    + cbn [bind]. eauto.
    + apply nth_error_None in Eq. lia.
  - cbn [bind]. eauto.
Qed.

Lemma rank_sections_document sims self sections persona job ranked sec :
  rank_sections sims self sections persona job = Some ranked ->
  In sec ranked ->
  exists s, In s sections /\ document sec = document s /\
            content sec = content s /\ page sec = page s.
Proof.
  unfold rank_sections.
  destruct (mapM _ _) as [scored|] eqn:Em; cbn [bind]; [|discriminate].
  intros [= <-] Hin. apply in_map_iff in Hin.
  destruct Hin as ([idx y] & <- & Hy).
  apply in_combine_r, firstn_In, sorted_In in Hy.
  apply mapM_In in Em. destruct Em as [Em _].
  destruct (Em y Hy) as ([i s] & His & Hq).
  destruct (nth_error _ i) as [q|]; cbn [bind] in Hq; [|discriminate].
  injection Hq as <-. exists s. split; [|auto].
  eapply in_combine_r, His.
Qed.

Lemma process_collection_total sims docs persona job :
  (forall texts query, length (sims texts query) = length texts) ->
  exists ranked subs,
    process_collection sims docs persona job = Some (ranked, subs).
Proof.
  intros Hs. unfold process_collection.
  destruct (@rank_sections_total sims default_analyzer
              (flat_map (fun '(filename, pdf) =>
                           map (set_document filename) (extract_sections pdf))
                        docs)
              persona job Hs) as [ranked Hr].
  rewrite Hr. cbn [bind].
  destruct (@mapM_total _ _ excerpt_of
              (firstn (max_subs default_analyzer) ranked)) as [subs Hsubs].
  - intros sec Hin. apply firstn_In in Hin.
    destruct (rank_sections_document _ _ _ _ _ _ Hr Hin) as (s & Hsin & Hd & _).
    apply in_flat_map in Hsin. destruct Hsin as ([filename pdf] & _ & Hsin).
    apply in_map_iff in Hsin. destruct Hsin as (s' & <- & _).
    unfold excerpt_of. rewrite Hd. cbn. eauto.
  - unfold extract_subsections. rewrite Hsubs. cbn [bind]. eauto.
Qed.

End SegmentFacts.

(* ================================================================== *)
(** * Section segmentation and excerpts: the stated properties         *)
(* ================================================================== *)

Section SectionClaims.

Import Challenge_1b Samples.

Lemma C6_kept_iff (doc : Document) (s : section) :
  In s (extract_sections doc) <->
  In s (segment (document_items doc)) /\ (20 < length (content s))%nat.
Proof.
  unfold extract_sections. rewrite filter_In, Nat.ltb_lt. tauto.
Qed.

(** C6, as the code has it.  The returned sections are the sections of the
    loop whose body is longer than 20 characters, in the order of the loop:
    every returned section has a body of at least 21 characters, every
    section with a body of 21 characters or more is returned, and a section
    with a body of 20 characters or fewer is not. *)
Theorem C6_sections_longer_than_20_kept (doc : Document) :
  extract_sections doc
  = filter (fun s => (21 <=? length (content s))%nat)
           (segment (document_items doc)) /\
  (forall s, In s (extract_sections doc) ->
     In s (segment (document_items doc)) /\ (21 <= length (content s))%nat) /\
  (forall s, In s (segment (document_items doc)) ->
     (21 <= length (content s))%nat -> In s (extract_sections doc)) /\
  (forall s, (length (content s) <= 20)%nat -> ~ In s (extract_sections doc)).
Proof.
  split; [|split; [|split]].
  - unfold extract_sections. apply filter_ext. intros s.
    destruct (Nat.ltb_spec 20 (length (content s)));
      destruct (Nat.leb_spec 21 (length (content s))); auto; lia.
  - intros s Hin. apply C6_kept_iff in Hin. split; [tauto | lia].
  - intros s Hin Hlen. apply C6_kept_iff. split; [exact Hin | lia].
  - intros s Hlen Hin. apply C6_kept_iff in Hin. lia.
Qed.

Lemma C6_witness_sections_of_doc_sections :
  In methods_section (segment (document_items doc_sections)) /\
  (21 <= length (content methods_section))%nat /\
  In methods_section (extract_sections doc_sections).
Proof.
  assert (H1 : In methods_section (segment (document_items doc_sections))).
  { vm_compute. right. left. reflexivity. }
  assert (H2 : (21 <= length (content methods_section))%nat).
  { vm_compute. repeat constructor. }
  split; [exact H1|]. split; [exact H2|].
  exact (proj1 (proj2 (proj2 (C6_sections_longer_than_20_kept doc_sections)))
               methods_section H1 H2).
Defined.

(** C6, as stated, fails: the section "SUMMARY:" of [doc_twenty] has a body
    of exactly 20 characters and is not returned. *)
Lemma C6_counterexample_body_of_20_dropped :
  In twenty_section (segment (document_items doc_twenty)) /\
  length (content twenty_section) = 20%nat /\
  ~ In twenty_section (extract_sections doc_twenty).
Proof.
  repeat split.
  - vm_compute. left. reflexivity.
  - vm_compute. intros [].
Qed.

(** One turn of the loop on a line that is no title, with a section open:
    a blank and the cleaned text are appended. *)
Lemma step_appends_blank_and_text secs (c : section) (it : item) :
  is_title_line (i_text it) = false ->
  step (secs, Some c) it
  = (secs, Some (set_content c (content c ++ lit " " ++ clean_text (i_text it)))).
Proof. intros H. unfold step. rewrite H. reflexivity. Qed.

(** C10, as the code has it.  Every section of the loop is either opened
    by a title line, and then its body is the concatenation of a blank and
    the cleaned text for each of its lines: it starts with a blank as soon
    as it has a line, its length counts one separator per line, that length
    is the one compared with 20, and the section, when returned, starts with
    a blank; or it is the implicit section "Introduction" of the lines
    before the first title, whose body is the cleaned text of its first line
    followed by a blank and the cleaned text for each further line: it
    starts with a character that is no blank when the first line has text
    left after cleaning, and with a blank, if it is not empty, when the
    first line has none. *)
Theorem C10_titled_body_starts_with_blank (doc : Document) (s : section) :
  In s (segment (document_items doc)) ->
  (exists body,
     opened_by_title (sorted_items doc) s body /\
     content s = body_text body /\
     (body <> [] -> exists r, content s = " "%char :: r) /\
     length (content s)
     = list_sum (map (fun b => 1 + length (clean_text (i_text b)))%nat body) /\
     (In s (extract_sections doc) <->
      (20 < list_sum
              (map (fun b => 1 + length (clean_text (i_text b)))%nat body))%nat) /\
     (In s (extract_sections doc) -> exists r, content s = " "%char :: r))
  \/
  (implicit_introduction (sorted_items doc) s /\
   title s = lit "Introduction" /\
   exists first body,
     hd_error (sorted_items doc) = Some first /\
     content s = clean_text (i_text first) ++ body_text body /\
     (clean_text (i_text first) <> [] ->
      exists c r, content s = c :: r /\ c <> " "%char) /\
     (clean_text (i_text first) = [] ->
      forall c r, content s = c :: r -> c = " "%char)).
Proof.
  intros Hseg. pose proof Hseg as Hin. apply segment_In in Hin.
  fold (sorted_items doc) in Hin.
  destruct Hin as [(body & Hop)|Hintro].
  - left. exists body.
    assert (Hc : content s = body_text body).
    { destruct Hop as (pre & t & rest & _ & _ & _ & _ & ->). reflexivity. }
    assert (Hkept : In s (extract_sections doc) <->
                    (20 < length (body_text body))%nat).
    { rewrite C6_kept_iff, Hc. tauto. }
    rewrite <- body_text_length, Hc.
    repeat split; auto; try apply Hkept.
    + apply body_text_blank.
    + intros Hret. apply body_text_blank. intros ->.
      apply Hkept in Hret. simpl in Hret. lia.
  - right. split; [exact Hintro|].
    destruct Hintro as (f & body & rest & Hl & _ & _ & _ & ->).
    split; [reflexivity|]. exists f, body. rewrite Hl.
    split; [reflexivity|]. split; [reflexivity|]. simpl content. split.
    + intros Hne.
      destruct (clean_text (i_text f)) as [|c r] eqn:Ec; [congruence|].
      exists c, (r ++ body_text body). split; [reflexivity|].
      intros ->. apply clean_text_head in Ec. discriminate Ec.
    + intros -> c r Hc. simpl in Hc.
      destruct body as [|b body']; [discriminate Hc|].
      destruct (@body_text_blank (b :: body')) as [r' Hr]; [discriminate|].
      rewrite Hr in Hc. injection Hc as <- _. reflexivity.
Qed.

Lemma C10_witness_methods_section :
  In methods_section (segment (document_items doc_sections)) /\
  ((exists body,
      opened_by_title (sorted_items doc_sections) methods_section body /\
      content methods_section = body_text body /\
      (body <> [] -> exists r, content methods_section = " "%char :: r) /\
      length (content methods_section)
      = list_sum (map (fun b => 1 + length (clean_text (i_text b)))%nat body) /\
      (In methods_section (extract_sections doc_sections) <->
       (20 < list_sum
               (map (fun b => 1 + length (clean_text (i_text b)))%nat body))%nat) /\
      (In methods_section (extract_sections doc_sections) ->
       exists r, content methods_section = " "%char :: r))
   \/
   (implicit_introduction (sorted_items doc_sections) methods_section /\
    title methods_section = lit "Introduction" /\
    exists first body,
      hd_error (sorted_items doc_sections) = Some first /\
      content methods_section = clean_text (i_text first) ++ body_text body /\
      (clean_text (i_text first) <> [] ->
       exists c r, content methods_section = c :: r /\ c <> " "%char) /\
      (clean_text (i_text first) = [] ->
       forall c r, content methods_section = c :: r -> c = " "%char))).
Proof.
  assert (H : In methods_section (segment (document_items doc_sections))).
  { vm_compute. right. left. reflexivity. }
  split; [exact H|].
  exact (@C10_titled_body_starts_with_blank doc_sections methods_section H).
Defined.

(** C10, as stated, fails: the first line of [doc_stars] is no title and
    [clean_text] leaves nothing of it, so the implicit section
    "Introduction", which is returned, has a body that starts with the
    blank put in front of its second line. *)
Lemma C10_counterexample_introduction_starts_with_blank :
  sorted_items doc_stars = [stars_first_line; stars_second_line] /\
  is_title_line (i_text stars_first_line) = false /\
  clean_text (i_text stars_first_line) = empty /\
  implicit_introduction (sorted_items doc_stars) stars_section /\
  extract_sections doc_stars = [stars_section] /\
  title stars_section = lit "Introduction" /\
  exists r, content stars_section = " "%char :: r.
Proof.
  assert (Hs : sorted_items doc_stars = [stars_first_line; stars_second_line])
    by (vm_compute; reflexivity).
  split; [exact Hs|]. split; [reflexivity|]. split; [reflexivity|].
  split; [|split; [vm_compute; reflexivity|split; [reflexivity|]]].
  - rewrite Hs. exists stars_first_line, [stars_second_line], [].
    repeat split; try reflexivity.
    constructor; [reflexivity | constructor].
  - eexists. reflexivity.
Qed.

(** The separator counts: a title followed by one line of 20 characters is
    kept (body of 21), the same line as an implicit introduction is not. *)
Example separator_counts_towards_threshold :
  let l := mk_line 120 [mk_span "Exactly twenty chars" 12 "Helvetica" 50] in
  let titled := {| pages := [ mk_page
                     [ mk_line 100 [mk_span "SUMMARY:" 12 "Helvetica" 50]; l ] ] |} in
  let untitled := {| pages := [ mk_page [ l ] ] |} in
  extract_sections titled
  = [ new_section "SUMMARY:" 1 " Exactly twenty chars" ] /\
  segment (document_items untitled)
  = [ new_section "Introduction" 1 "Exactly twenty chars" ] /\
  extract_sections untitled = [].
Proof. repeat split; vm_compute; reflexivity. Qed.

(** The sections of [doc_sections]: the implicit introduction starts with
    its text, the two titled sections with a blank. *)
Example sections_of_doc_sections :
  extract_sections doc_sections
  = [ introduction_section; methods_section;
      new_section "Results:" 1 " All figures are final." ].
Proof. vm_compute. reflexivity. Qed.

(** C8.  For an analyzer with limit [max_subs] (5 by default), the
    excerpts of a ranked list are at most [max_subs]; the excerpt at position
    [i] is made from the section of importance rank [i + 1], which is at
    most [max_subs]; its text is the first three pieces, or fewer, of the
    body split after [.], [!] or [?] followed by blanks, joined by one blank;
    every such piece that is not the last piece of the body ends with one of
    the three marks. *)
Theorem C8_excerpts_from_top_M_first_3_sentences
    (similarities : list str -> str -> list Q) (self : DocumentAnalyzer)
    (sections : list section) (persona job : str)
    (ranked : list section) (subs : list excerpt) :
  rank_sections similarities self sections persona job = Some ranked ->
  extract_subsections self ranked = Some subs ->
  max_subs default_analyzer = 5%nat /\
  (length subs <= max_subs self)%nat /\
  forall i e, nth_error subs i = Some e ->
    exists sec,
      nth_error ranked i = Some sec /\
      importance_rank sec = Some (i + 1)%nat /\
      (i + 1 <= max_subs self)%nat /\
      document sec = Some (e_document e) /\
      page_number e = page sec /\
      let sents := split_sentences (content sec) in
      refined_text e = join " " (firstn 3 sents) /\
      (length (firstn 3 sents) <= 3)%nat /\
      forall j p, nth_error (firstn 3 sents) j = Some p ->
                  (S j < length sents)%nat -> ends_sentence p.
Proof.
  intros Er Ex. split; [reflexivity|]. split.
  - unfold extract_subsections in Ex. apply mapM_Some in Ex.
    destruct Ex as [-> _]. apply firstn_le_length.
  - intros i e He.
    destruct (extract_subsections_nth _ _ _ Ex He) as (Hi & sec & Hs & Hex).
    exists sec.
    destruct (rank_sections_rank _ _ _ _ _ _ Er Hs) as [Hr _].
    unfold excerpt_of in Hex.
    destruct (document sec) as [d|]; cbn [bind] in Hex; [|discriminate].
    injection Hex as <-. cbn [e_document refined_text page_number].
    repeat split; auto; try lia.
    + apply firstn_le_length.
    + intros j p Hp Hj. rewrite nth_error_firstn in Hp.
      destruct (j <? 3)%nat; [|discriminate].
      eapply split_sentences_ends; eauto.
Qed.

Lemma C8_witness_collection_of_two_documents :
  rank_sections containment default_analyzer sample_pool "figures" "are final"
  = Some sample_ranked /\
  extract_subsections default_analyzer sample_ranked = Some sample_excerpts /\
  max_subs default_analyzer = 5%nat /\
  (length sample_excerpts <= max_subs default_analyzer)%nat /\
  forall i e, nth_error sample_excerpts i = Some e ->
    exists sec,
      nth_error sample_ranked i = Some sec /\
      importance_rank sec = Some (i + 1)%nat /\
      (i + 1 <= max_subs default_analyzer)%nat /\
      document sec = Some (e_document e) /\
      page_number e = page sec /\
      let sents := split_sentences (content sec) in
      refined_text e = join " " (firstn 3 sents) /\
      (length (firstn 3 sents) <= 3)%nat /\
      forall j p, nth_error (firstn 3 sents) j = Some p ->
                  (S j < length sents)%nat -> ends_sentence p.
Proof.
  assert (H1 : rank_sections containment default_analyzer sample_pool
                 "figures" "are final" = Some sample_ranked).
  { vm_compute. reflexivity. }
  assert (H2 : extract_subsections default_analyzer sample_ranked
               = Some sample_excerpts).
  { vm_compute. reflexivity. }
  split; [exact H1|]. split; [exact H2|].
  exact (@C8_excerpts_from_top_M_first_3_sentences
           containment default_analyzer sample_pool "figures" "are final"
           sample_ranked sample_excerpts H1 H2).
Defined.

(** The same through [process_collection]. *)
Example process_collection_sample :
  process_collection containment sample_collection "figures" "are final"
  = Some (sample_ranked, sample_excerpts).
Proof. vm_compute. reflexivity. Qed.

End SectionClaims.

(* ================================================================== *)
(** * Further properties of the outline extraction                     *)
(* ================================================================== *)

Section SpansAndGroups.

Import Challenge_1a Samples.

Lemma strip_last (s r : str) (c : ascii) :
  strip s = r ++ [c] -> isspace c = false.
Proof.
  unfold strip, rstrip. intros H. apply (f_equal (@rev ascii)) in H.
  rewrite rev_involutive, rev_app_distr in H. simpl in H.
  eapply dropwhile_head, H.
Qed.

Lemma strip_trimmed (s : str) : trimmed (strip s).
Proof.
  split.
  - intros c r H. eapply strip_head, H.
  - intros r c H. eapply strip_last, H.
Qed.



(** ** The sort is a permutation and keeps ties in place *)

Lemma insert_Permutation {A K} (leb : K -> K -> bool) (key : A -> K) x l :
  Permutation (insert leb key x l) (x :: l).
Proof.
  induction l as [|y l IH]; simpl; [reflexivity|].
  destruct (leb (key x) (key y)); [reflexivity|].
  rewrite IH. apply perm_swap.
Qed.

Lemma sorted_Permutation {A K} (leb : K -> K -> bool) (key : A -> K) l :
  Permutation (sorted leb key l) l.
Proof.
  induction l as [|x l IH]; simpl; [reflexivity|].
  rewrite insert_Permutation. constructor. exact IH.
Qed.

Lemma sorted_stable {A K} (leb : K -> K -> bool) (key : A -> K)
    (p : A -> bool) (l : list A) :
  (forall a b, p a = true -> p b = true -> leb (key a) (key b) = true) ->
  filter p (sorted leb key l) = filter p l.
Proof.
  intros Htie.
  assert (Hins : forall x s, filter p (insert leb key x s)
                             = filter p (x :: s)).
  { intros x s. induction s as [|y s IH]; [reflexivity|].
    simpl insert. destruct (leb (key x) (key y)) eqn:E; [reflexivity|].
    simpl filter in *. destruct (p y) eqn:Ey.
    - destruct (p x) eqn:Ex.
      + rewrite (Htie x y Ex Ey) in E. discriminate.
      + rewrite IH. reflexivity.
    - exact IH. }
  induction l as [|x l IH]; [reflexivity|].
  simpl sorted. rewrite Hins. simpl. rewrite IH. reflexivity.
Qed.

(** ** Clustering *)

Lemma cluster_count_min (sizes : list Q) (n : nat) :
  (if (count_unique sizes <? n)%nat then count_unique sizes else n)
  = Nat.min n (count_unique sizes).
Proof. destruct (Nat.ltb_spec (count_unique sizes) n); lia. Qed.

Lemma cluster_font_sizes_length
    RNG (KM : option Z -> RNG -> nat -> list Q -> list Q) g sizes n :
  (forall rs g n X, length (KM rs g n X) = n) ->
  length (cluster_font_sizes KM g sizes n) = Nat.min n (count_unique sizes).
Proof.
  intros Hn. unfold cluster_font_sizes. rewrite cluster_count_min.
  destruct (Nat.eqb_spec (Nat.min n (count_unique sizes)) 0) as [->|_];
    [reflexivity|].
  rewrite sorted_length. apply Hn.
Qed.

(** X2.  The centers returned by [cluster_font_sizes] are in ascending
    order; there is none when there is no size or when [n] is 0; otherwise
    they are the centers of one seeded fit, asked for as many clusters as
    there are distinct sizes but no more than [n]; with a library that
    returns as many centers as clusters, that is their number. *)
Theorem X2_cluster_font_sizes_sorted_and_clamped
    RNG (KM : option Z -> RNG -> nat -> list Q -> list Q) g sizes n :
  StronglySorted Qle (cluster_font_sizes KM g sizes n) /\
  (sizes = [] \/ n = 0%nat -> cluster_font_sizes KM g sizes n = []) /\
  (sizes <> [] -> n <> 0%nat ->
   (1 <= Nat.min n (count_unique sizes))%nat /\
   Permutation (cluster_font_sizes KM g sizes n)
               (KM (Some 42%Z) g (Nat.min n (count_unique sizes)) sizes)) /\
  ((forall rs g n X, length (KM rs g n X) = n) ->
   length (cluster_font_sizes KM g sizes n) = Nat.min n (count_unique sizes)).
Proof.
  split; [|split; [|split]].
  - unfold cluster_font_sizes.
    destruct (_ =? 0)%nat; [constructor|].
    eapply StronglySorted_weaken;
      [| apply sorted_StronglySorted;
         [apply Qle_bool_total | apply Qle_bool_trans]].
    intros a b Hab. apply Qle_bool_iff, Hab.
  - unfold cluster_font_sizes. rewrite cluster_count_min.
    intros [->| ->]; simpl; [|reflexivity].
    rewrite Nat.min_0_r. reflexivity.
  - intros Hs Hn. pose proof (count_unique_pos Hs) as Hu.
    split; [lia|].
    unfold cluster_font_sizes. rewrite cluster_count_min.
    destruct (Nat.eqb_spec (Nat.min n (count_unique sizes)) 0); [lia|].
    apply sorted_Permutation.
  - apply cluster_font_sizes_length.
Qed.

(** ** Grouping into lines *)

Lemma group_lines_snoc (l : list span) (s : span) :
  group_lines (l ++ [s])
  = setdefault_append (group_lines l) (s_pno s, s_y0 s) s.
Proof. unfold group_lines. rewrite fold_left_app. reflexivity. Qed.

Lemma setdefault_append_concat lines k s :
  Permutation (concat (map snd (setdefault_append lines k s)))
              (concat (map snd lines) ++ [s]).
Proof.
  induction lines as [|[k' g] r IH]; simpl.
  - reflexivity.
  - destruct (key_eqb k' k); simpl.
    + rewrite <- !app_assoc. apply Permutation_app_head.
      apply Permutation_app_comm.
    + rewrite <- app_assoc. apply Permutation_app_head. exact IH.
Qed.

Lemma setdefault_append_In lines k s k' g' :
  In (k', g') (setdefault_append lines k s) ->
  In (k', g') lines \/ (k' = k /\ g' = [s]) \/
  (exists g, In (k', g) lines /\ g' = g ++ [s] /\ key_eqb k' k = true).
Proof.
  induction lines as [|[k0 g0] r IH]; simpl.
  - intros [[= <- <-]|[]]. auto.
  - destruct (key_eqb k0 k) eqn:E; simpl.
    + intros [[= <- <-]|H]; [|auto].
      right. right. exists g0. auto.
    + intros [H|H]; [auto|].
      destruct (IH H) as [H'|[H'|(g & Hg & H')]]; auto.
      right. right. exists g. auto.
Qed.

Lemma setdefault_append_keys lines k s k0 :
  key_eqb k0 k = false ->
  Forall (fun b => key_eqb k0 (fst b) = false) lines ->
  Forall (fun b => key_eqb k0 (fst b) = false) (setdefault_append lines k s).
Proof.
  intros Hk. induction 1 as [|[k' g] r Hh Hr IH]; simpl.
  - constructor; [exact Hk | constructor].
  - destruct (key_eqb k' k); constructor; auto.
Qed.

Lemma setdefault_append_distinct lines k s :
  distinct_keys lines -> distinct_keys (setdefault_append lines k s).
Proof.
  unfold distinct_keys.
  induction 1 as [|[k' g] r Hh Hr IH]; simpl.
  - constructor; constructor.
  - destruct (key_eqb k' k) eqn:E.
    + constructor; assumption.
    + constructor; [|exact IH].
      apply setdefault_append_keys; assumption.
Qed.

(** X3.  [group_lines] partitions the spans: the groups together hold every
    span once, no group is empty, the keys of two groups are different, and
    every span of a group is on the page and at the vertical position of
    its key. *)
Theorem X3_group_lines_partition (spans : list span) :
  Permutation (concat (map snd (group_lines spans))) spans /\
  distinct_keys (group_lines spans) /\
  (forall k g, In (k, g) (group_lines spans) ->
     g <> [] /\
     forall s, In s g -> s_pno s = fst k /\ s_y0 s == snd k).
Proof.
  induction spans as [|s l IH] using rev_ind.
  - repeat split; try constructor; try contradiction.
  - destruct IH as (Hperm & Hdist & Hkey). rewrite group_lines_snoc.
    split; [|split].
    + rewrite setdefault_append_concat.
      apply Permutation_app_tail, Hperm.
    + apply setdefault_append_distinct, Hdist.
    + intros k g Hin. apply setdefault_append_In in Hin.
      destruct Hin as [Hin|[[-> ->]|(g0 & Hin & -> & E)]].
      * apply Hkey, Hin.
      * split; [discriminate|]. intros s' [<-|[]]. simpl.
        split; [reflexivity | apply Qeq_refl].
      * destruct (Hkey k g0 Hin) as [_ Hg0].
        split; [destruct g0; discriminate|].
        intros s' Hs'. apply in_app_or in Hs'.
        destruct Hs' as [Hs'|[<-|[]]]; [apply Hg0, Hs'|].
        unfold key_eqb in E. apply andb_true_iff in E.
        destruct E as [E1 E2]. apply Nat.eqb_eq in E1.
        apply Qeq_bool_iff in E2. simpl in E1, E2.
        split; [congruence | symmetry; exact E2].
Qed.

(** ** The pages of a text *)

Lemma set_add_In (p q : nat) (ps : list nat) :
  In q (set_add p ps) <-> q = p \/ In q ps.
Proof.
  unfold set_add. destruct (existsb (Nat.eqb p) ps) eqn:E.
  - split; [auto|]. intros [->|H]; [|exact H].
    apply existsb_exists in E. destruct E as (x & Hx & Ex).
    apply Nat.eqb_eq in Ex. subst x. exact Hx.
  - rewrite in_app_iff. simpl. intuition.
Qed.

Lemma set_add_NoDup (p : nat) (ps : list nat) :
  NoDup ps -> NoDup (set_add p ps).
Proof.
  intros H. unfold set_add. destruct (existsb (Nat.eqb p) ps) eqn:E.
  - exact H.
  - apply NoDup_app; [exact H | repeat constructor; intros [] |].
    intros x Hx [<-|[]].
    assert (existsb (Nat.eqb p) ps = true); [|congruence].
    apply existsb_exists. exists p. split; [exact Hx | apply Nat.eqb_refl].
Qed.

Lemma get_pages_setdefault_add tp t' p' t :
  get_pages (setdefault_add tp t' p') t
  = if str_eqb t' t then set_add p' (get_pages tp t) else get_pages tp t.
Proof.
  unfold get_pages. induction tp as [|[t0 ps] r IH]; simpl.
  - destruct (str_eqb t' t); reflexivity.
  - destruct (str_eqb t0 t') eqn:E0; simpl.
    + apply str_eqb_eq in E0. subst t0.
      destruct (str_eqb t' t); reflexivity.
    + destruct (str_eqb t0 t) eqn:E1.
      * apply str_eqb_eq in E1. subst t0.
        destruct (str_eqb t' t) eqn:E2; [|reflexivity].
        apply str_eqb_eq in E2. subst t'.
        assert (str_eqb t t = true) by (apply str_eqb_eq; reflexivity).
        congruence.
      * exact IH.
Qed.

Lemma build_text_pages_snoc (l : list span) (s : span) :
  build_text_pages (l ++ [s])
  = setdefault_add (build_text_pages l) (s_text s) (s_pno s).
Proof. unfold build_text_pages. rewrite fold_left_app. reflexivity. Qed.

(** X4.  Looking a text up in [text_pages] gives, without repetition, the
    pages that have a span with that text; the length compared with 2 by
    the filter of repeated lines is the number of those pages. *)
Theorem X4_text_pages_lookup (spans : list span) (t : str) :
  NoDup (get_pages (build_text_pages spans) t) /\
  forall p, In p (get_pages (build_text_pages spans) t) <->
            exists s, In s spans /\ s_text s = t /\ s_pno s = p.
Proof.
  induction spans as [|s l [IHn IHi]] using rev_ind.
  - split; [constructor|]. intros p. split; [intros [] | intros (s & [] & _)].
  - rewrite build_text_pages_snoc, get_pages_setdefault_add.
    destruct (str_eqb (s_text s) t) eqn:E.
    + apply str_eqb_eq in E. split; [apply set_add_NoDup, IHn|].
      intros p. rewrite set_add_In, IHi. split.
      * intros [->|(s' & Hs' & H)].
        -- exists s. split; [apply in_or_app; right; left; reflexivity | auto].
        -- exists s'. split; [apply in_or_app; left; exact Hs' | exact H].
      * intros (s' & Hs' & Ht & Hp). apply in_app_or in Hs'.
        destruct Hs' as [Hs'|[<-|[]]]; [right; eauto | left; auto].
    + split; [exact IHn|]. intros p. rewrite IHi. split.
      * intros (s' & Hs' & H). exists s'.
        split; [apply in_or_app; left; exact Hs' | exact H].
      * intros (s' & Hs' & Ht & Hp). apply in_app_or in Hs'.
        destruct Hs' as [Hs'|[<-|[]]]; [eauto|].
        apply str_eqb_eq in Ht. congruence.
Qed.

End SpansAndGroups.

Section OutlineFilters.

Import Challenge_1a Samples.

Lemma dropwhile_split {A} (p : A -> bool) (l : list A) :
  exists pre, l = pre ++ dropwhile p l /\ forallb p pre = true.
Proof.
  induction l as [|y l (pre & IH & Hp)]; simpl.
  - exists []. auto.
  - destruct (p y) eqn:E.
    + exists (y :: pre). simpl. rewrite E, Hp. split; [congruence | reflexivity].
    + exists []. auto.
Qed.

Lemma dropwhile_app_all {A} (p : A -> bool) (ds rest : list A) :
  forallb p ds = true -> dropwhile p (ds ++ rest) = dropwhile p rest.
Proof.
  induction ds as [|d ds IH]; simpl; [reflexivity|].
  intros H. apply andb_true_iff in H. destruct H as [-> H]. apply IH, H.
Qed.

Lemma fullmatch_number_dot_spec (s : str) :
  fullmatch_number_dot s = true <-> is_number_text s.
Proof.
  unfold fullmatch_number_dot, is_number_text. split.
  - destruct s as [|c r]; [discriminate|].
    intros H. apply andb_true_iff in H. destruct H as [Hc H].
    destruct (dropwhile_split isdigit (c :: r)) as (pre & Hs & Hp).
    destruct (dropwhile isdigit (c :: r)) as [|d [|d' rest]];
      try discriminate.
    + rewrite app_nil_r in Hs. exists (c :: r).
      split; [discriminate|]. split; [congruence | auto].
    + apply Ascii.eqb_eq in H. subst d. exists pre.
      destruct pre as [|x pre'].
      * simpl in Hs. injection Hs as -> _. discriminate Hc.
      * split; [discriminate|]. split; [exact Hp | right; exact Hs].
  - intros (ds & Hne & Hd & Hs).
    destruct ds as [|c ds']; [congruence|].
    pose proof Hd as Hd'. simpl in Hd'. apply andb_true_iff in Hd'.
    destruct Hd' as [Hc _].
    destruct Hs as [->| ->].
    + assert (Hdrop : dropwhile isdigit (c :: ds') = []).
      { rewrite <- (app_nil_r (c :: ds')).
        apply (@dropwhile_app_all _ isdigit (c :: ds') [] Hd). }
      rewrite Hdrop, Hc. reflexivity.
    + assert (Hdrop : dropwhile isdigit ((c :: ds') ++ lit ".") = lit ".").
      { rewrite (@dropwhile_app_all _ isdigit (c :: ds') (lit ".") Hd).
        reflexivity. }
      rewrite Hdrop. simpl. rewrite Hc. reflexivity.
Qed.

(** X6.  A text that is digits only already matches the first numeric
    pattern of the loop, [\d+\.?]: the later test against [\d+] never rejects
    a line that has come that far. *)
Theorem X6_second_numeric_test_never_decides (s : str) :
  fullmatch_number s = true ->
  fullmatch_number_dot s = true /\ is_number_text s.
Proof.
  intros H.
  assert (Hn : is_number_text s).
  { destruct s as [|c r]; [discriminate|]. simpl in H.
    exists (c :: r). split; [discriminate|]. split; [exact H | auto]. }
  split; [apply fullmatch_number_dot_spec, Hn | exact Hn].
Qed.

Lemma X6_witness_page_number :
  fullmatch_number "42" = true /\
  fullmatch_number_dot "42" = true /\ is_number_text "42".
Proof.
  split; [reflexivity|].
  apply (@X6_second_numeric_test_never_decides (lit "42")). reflexivity.
Defined.

Lemma Qltb_false (a b : Q) : Qltb a b = false -> b <= a.
Proof.
  unfold Qltb. intros H. apply Qnot_lt_le. intros Hlt.
  pose proof (proj1 (Qlt_alt a b) Hlt) as Hc.
  destruct (a ?= b); discriminate.
Qed.

Lemma filter_line_filters doc centers tp k group text max_c :
  filter_line doc centers tp k group = Some (Some (text, max_c)) ->
  exists pg,
    load_page doc (fst k) = Some pg /\
    30 <= snd k /\ snd k <= rect_height pg - 30 /\
    (length group <= 5)%nat /\
    fullmatch_number_dot text = false.
Proof.
  intros H. pose proof (filter_line_inv _ _ _ _ _ H) as (Ht & _).
  revert H. unfold filter_line. destruct k as [pno y0]. simpl fst. simpl snd.
  destruct (load_page doc pno) as [pg|]; cbn [bind]; [|discriminate].
  destruct (Qltb y0 30 || Qltb (rect_height pg - 30) y0) eqn:Em; [discriminate|].
  apply orb_false_iff in Em. destruct Em as [Em1 Em2].
  unfold merged_text in Ht. rewrite <- Ht.
  set (g := sorted Qle_bool (fun s => bx0 (s_bbox s)) group).
  destruct (2 <? length (get_pages tp text))%nat; [discriminate|].
  destruct (fullmatch_number_dot text) eqn:En; [discriminate|].
  destruct (5 <? length g)%nat eqn:E5; [discriminate|].
  intros _. exists pg. apply Nat.ltb_ge in E5.
  unfold g in E5. rewrite sorted_length in E5.
  repeat split; auto using Qltb_false.
Qed.

Lemma outline_entry_line
    RNG (KM : option Z -> RNG -> nat -> list Q -> list Q) g doc title outline e :
  extract_outline KM g doc = Some (title, outline) -> In e outline ->
  exists k group text max_c,
    In (k, group) (group_lines (extract_spans doc)) /\
    filter_line doc
      (cluster_font_sizes KM g (map s_size (extract_spans doc)) 4)
      (build_text_pages (extract_spans doc)) k group
    = Some (Some (text, max_c)) /\
    assign_level (cluster_font_sizes KM g (map s_size (extract_spans doc)) 4)
                 max_c text = Some (o_level e) /\
    o_page e = (fst k + 1)%nat /\
    o_text e = text ++ lit " ".
Proof.
  intros H He.
  destruct (extract_outline_inv _ _ _ H) as (hs & Hs & _ & ->).
  apply sorted_headings_inv in Hs. destruct Hs as (hs0 & Hc & ->).
  destruct (collect_headings_inv _ _ _ _ Hc) as [Hfrom _].
  apply in_map_iff in He. destruct He as (h & <- & Hh).
  apply remove_title_entries_In, sorted_In, Hfrom in Hh.
  destruct Hh as (k & group & Hin & Hp).
  apply process_line_inv in Hp.
  destruct Hp as (text & max_c & Hf & Ha & Hpage & _ & Htext).
  exists k, group, text, max_c. simpl. auto.
Qed.

(** X5.  Every entry of the outline is a line of the document that passed
    the filters of the loop: it lies between the two margins of 30 units of
    its page, it has between one and five fragments, its text is not a
    number with or without a period, and fewer than three pages have a span
    with its text; the entry carries the text of the line followed by one
    blank, and the 1-based number of an existing page. *)
Theorem X5_outline_entries_pass_the_filters
    RNG (KM : option Z -> RNG -> nat -> list Q -> list Q) g doc title outline e :
  extract_outline KM g doc = Some (title, outline) -> In e outline ->
  exists k group pg,
    In (k, group) (group_lines (extract_spans doc)) /\
    load_page doc (fst k) = Some pg /\
    o_page e = (fst k + 1)%nat /\
    (1 <= o_page e <= page_count doc)%nat /\
    o_text e = merged_text group ++ lit " " /\
    30 <= snd k /\ snd k <= rect_height pg - 30 /\
    (1 <= length group <= 5)%nat /\
    ~ is_number_text (merged_text group) /\
    (length (get_pages (build_text_pages (extract_spans doc))
                       (merged_text group)) <= 2)%nat.
Proof.
  intros H He.
  destruct (@outline_entry_line _ _ _ _ _ _ _ H He)
    as (k & group & text & max_c & Hin & Hf & _ & Hpage & Htext).
  destruct (filter_line_filters _ _ _ _ _ Hf) as (pg & Hpg & Hlo & Hhi & H5 & Hn).
  destruct (filter_line_inv _ _ _ _ _ Hf) as (-> & _ & Hrep & _).
  destruct (group_lines_well_grouped (extract_spans doc) k group Hin) as [Hne _].
  exists k, group, pg. repeat split; auto.
  - lia.
  - rewrite Hpage. unfold load_page, page_count in *.
    assert (fst k < length (pages doc))%nat; [|lia].
    apply nth_error_Some. congruence.
  - destruct group; [congruence | simpl; lia].
  - intros Hnum. apply fullmatch_number_dot_spec in Hnum. congruence.
Qed.

Lemma padded_KMeans_count :
  forall (rs : option Z) (g : bool) (n : nat) (X : list Q),
    length (padded_KMeans rs g n X) = n.
Proof.
  intros rs g n X. unfold padded_KMeans.
  rewrite length_firstn, length_app, repeat_length. lia.
Defined.

Lemma doc_numbered_outline :
  extract_outline padded_KMeans true doc_numbered
  = Some (lit "Overview 1.1 Scope", [details_entry]).
Proof. vm_compute. reflexivity. Defined.

Lemma X5_witness_details_line :
  extract_outline padded_KMeans true doc_numbered
  = Some (lit "Overview 1.1 Scope", [details_entry]) /\
  In details_entry [details_entry] /\
  exists k group pg,
    In (k, group) (group_lines (extract_spans doc_numbered)) /\
    load_page doc_numbered (fst k) = Some pg /\
    o_page details_entry = (fst k + 1)%nat /\
    (1 <= o_page details_entry <= page_count doc_numbered)%nat /\
    o_text details_entry = merged_text group ++ lit " " /\
    30 <= snd k /\ snd k <= rect_height pg - 30 /\
    (1 <= length group <= 5)%nat /\
    ~ is_number_text (merged_text group) /\
    (length (get_pages (build_text_pages (extract_spans doc_numbered))
                       (merged_text group)) <= 2)%nat.
Proof.
  split; [exact doc_numbered_outline|].
  split; [left; reflexivity|].
  exact (@X5_outline_entries_pass_the_filters bool padded_KMeans true
           doc_numbered _ _ details_entry doc_numbered_outline
           (or_introl eq_refl)).
Defined.

Lemma centers_at_most_4
    RNG (KM : option Z -> RNG -> nat -> list Q -> list Q) g sizes :
  (forall rs g n X, length (KM rs g n X) = n) ->
  (length (cluster_font_sizes KM g sizes 4) <= 4)%nat /\
  (length (cluster_font_sizes KM g sizes 4) <= count_unique sizes)%nat.
Proof.
  intros Hn. rewrite (@cluster_font_sizes_length _ KM g sizes 4 Hn). lia.
Qed.

(** X7.  With a library that returns as many centers as clusters, the
    outline has only the levels [H1] and [H2]; and an entry whose text
    begins with a digit is at [H1]. *)
Theorem X7_outline_levels_are_H1_or_H2
    RNG (KM : option Z -> RNG -> nat -> list Q -> list Q) g doc title outline e :
  (forall rs g n X, length (KM rs g n X) = n) ->
  extract_outline KM g doc = Some (title, outline) -> In e outline ->
  (o_level e = lit "H1" \/ o_level e = lit "H2") /\
  (is_numbered (o_text e) = true -> o_level e = lit "H1").
Proof.
  intros Hn H He.
  destruct (@outline_entry_line _ _ _ _ _ _ _ H He)
    as (k & group & text & max_c & _ & Hf & Ha & _ & Htext).
  pose proof (filter_line_max_c _ _ _ _ _ Hf) as Hm.
  destruct (@centers_at_most_4 _ KM g (map s_size (extract_spans doc)) Hn)
    as [H4 _].
  destruct (@assign_level_small _ max_c text Hm H4) as [Hd Ha'].
  rewrite Ha' in Ha. injection Ha as Ha.
  set (d := base_depth _ max_c) in *.
  assert (Hnum : is_numbered (o_text e) = is_numbered text).
  { rewrite Htext. destruct text; reflexivity. }
  rewrite Hnum. rewrite <- Ha.
  assert (Hcase : d = 1%Z \/ d = 2%Z) by lia.
  destruct Hcase as [-> | ->]; destruct (is_numbered text); simpl;
    split; auto; discriminate.
Qed.

Lemma X7_witness_details_level :
  (forall rs g n X, length (padded_KMeans rs g n X) = n) /\
  extract_outline padded_KMeans true doc_numbered
  = Some (lit "Overview 1.1 Scope", [details_entry]) /\
  In details_entry [details_entry] /\
  (o_level details_entry = lit "H1" \/ o_level details_entry = lit "H2") /\
  (is_numbered (o_text details_entry) = true ->
   o_level details_entry = lit "H1").
Proof.
  split; [exact padded_KMeans_count|].
  split; [exact doc_numbered_outline|].
  split; [left; reflexivity|].
  exact (@X7_outline_levels_are_H1_or_H2 bool padded_KMeans true
           doc_numbered _ _ details_entry padded_KMeans_count
           doc_numbered_outline (or_introl eq_refl)).
Defined.

(** X8.  With a library that returns as many centers as clusters, a
    document with one or two distinct font sizes has the empty title and the
    empty outline: no line reaches the two upper font levels. *)
Theorem X8_fewer_than_three_sizes_empty_outline
    RNG (KM : option Z -> RNG -> nat -> list Q -> list Q) g doc :
  (forall rs g n X, length (KM rs g n X) = n) ->
  (count_unique (map s_size (extract_spans doc)) <= 2)%nat ->
  extract_outline KM g doc = Some (empty, []).
Proof.
  intros Hn H2.
  destruct (@extract_outline_total _ KM g doc Hn) as (title & outline & H).
  rewrite H.
  destruct (extract_outline_inv _ _ _ H) as (hs & Hs & -> & ->).
  apply sorted_headings_inv in Hs. destruct Hs as (hs0 & Hc & ->).
  destruct hs0 as [|h r]; [reflexivity|]. exfalso.
  destruct (collect_headings_inv _ _ _ _ Hc) as [Hfrom _].
  destruct (Hfrom h (or_introl eq_refl)) as (k & group & _ & Hp).
  apply process_line_inv in Hp. destruct Hp as (text & max_c & Hf & _).
  apply filter_line_max_c in Hf.
  destruct (@centers_at_most_4 _ KM g (map s_size (extract_spans doc)) Hn)
    as [_ Hle].
  lia.
Qed.

Lemma X8_witness_two_sizes :
  (forall rs g n X, length (padded_KMeans rs g n X) = n) /\
  (count_unique (map s_size (extract_spans doc_two_sizes)) <= 2)%nat /\
  extract_outline padded_KMeans true doc_two_sizes = Some (empty, []).
Proof.
  assert (H : (count_unique (map s_size (extract_spans doc_two_sizes)) <= 2)%nat).
  { vm_compute. repeat constructor. }
  split; [exact padded_KMeans_count|]. split; [exact H|].
  exact (@X8_fewer_than_three_sizes_empty_outline bool padded_KMeans true
           doc_two_sizes padded_KMeans_count H).
Defined.

(** X9.  When no heading is on page 1 at level [H1], the title is empty and
    the outline keeps every heading. *)
Theorem X9_no_top_heading_on_page_1
    RNG (KM : option Z -> RNG -> nat -> list Q -> list Q) g doc title outline hs :
  extract_outline KM g doc = Some (title, outline) ->
  sorted_headings KM g doc = Some hs ->
  (forall h, In h hs -> ~ (h_page h = 1%nat /\ h_level h = lit "H1")) ->
  title = empty /\ outline = map entry_of hs.
Proof.
  intros H Hs Hno.
  destruct (extract_outline_inv _ _ _ H) as (hs' & Hs' & -> & ->).
  rewrite Hs in Hs'. injection Hs' as <-.
  assert (Hf : filter is_p1_h1 hs = []).
  { clear H Hs. induction hs as [|h r IH]; [reflexivity|]. simpl.
    destruct (is_p1_h1 h) eqn:E.
    - apply is_p1_h1_spec in E. exfalso. apply (Hno h); simpl; auto.
    - apply IH. intros h' Hh'. apply Hno. right. exact Hh'. }
  assert (Ht : title_entries hs = []).
  { unfold title_entries. rewrite Hf. reflexivity. }
  unfold remove_title_entries. rewrite Ht. split; [reflexivity|].
  f_equal. apply forallb_filter_id. apply forallb_forall.
  intros h _. unfold in_title_set. simpl. rewrite andb_false_r. reflexivity.
Qed.

Lemma X9_witness_late_heading :
  extract_outline exact_KMeans true doc_late_heading
  = Some (empty, map entry_of late_headings) /\
  sorted_headings exact_KMeans true doc_late_heading = Some late_headings /\
  (forall h, In h late_headings ->
     ~ (h_page h = 1%nat /\ h_level h = lit "H1")) /\
  empty = empty /\ map entry_of late_headings = map entry_of late_headings.
Proof.
  assert (H1 : extract_outline exact_KMeans true doc_late_heading
               = Some (empty, map entry_of late_headings)).
  { vm_compute. reflexivity. }
  assert (H2 : sorted_headings exact_KMeans true doc_late_heading
               = Some late_headings).
  { vm_compute. reflexivity. }
  assert (H3 : forall h, In h late_headings ->
                 ~ (h_page h = 1%nat /\ h_level h = lit "H1")).
  { intros h [<-|[<-|[]]] [Hp Hl]; discriminate. }
  split; [exact H1|]. split; [exact H2|]. split; [exact H3|].
  exact (@X9_no_top_heading_on_page_1 bool exact_KMeans true
           doc_late_heading _ _ late_headings H1 H2 H3).
Defined.

(** X10.  The title has no white space at either end, although every
    heading text ends with a blank; and when page 1 has at most two headings
    at level [H1], the title is made of all of them and none of them stays
    in the outline. *)
Theorem X10_title_trimmed_and_top_headings_removed
    RNG (KM : option Z -> RNG -> nat -> list Q -> list Q) g doc title outline hs :
  extract_outline KM g doc = Some (title, outline) ->
  sorted_headings KM g doc = Some hs ->
  trimmed title /\
  ((length (filter is_p1_h1 hs) <= 2)%nat ->
   title = strip (concat (map h_text
                     (sorted Qle_bool h_y (filter is_p1_h1 hs)))) /\
   forall e, In e outline -> ~ (o_page e = 1%nat /\ o_level e = lit "H1")).
Proof.
  intros H Hs.
  destruct (extract_outline_inv _ _ _ H) as (hs' & Hs' & -> & ->).
  rewrite Hs in Hs'. injection Hs' as <-.
  split; [apply strip_trimmed|]. intros Hlen.
  assert (Ht : title_entries hs = sorted Qle_bool h_y (filter is_p1_h1 hs)).
  { unfold title_entries. apply firstn_all2. rewrite sorted_length. exact Hlen. }
  split; [unfold title_of; rewrite Ht; reflexivity|].
  intros e He [Hp Hl]. apply in_map_iff in He. destruct He as (h & <- & Hh).
  simpl in Hp, Hl. unfold remove_title_entries in Hh. apply filter_In in Hh.
  destruct Hh as [Hin Hb]. apply negb_true_iff, andb_false_iff in Hb.
  assert (H1 : is_p1_h1 h = true) by (apply is_p1_h1_spec; auto).
  destruct Hb as [Hb|Hb]; [congruence|].
  assert (in_title_set (title_entries hs) h = true); [|congruence].
  apply in_title_set_spec. exists h. split; [|reflexivity].
  rewrite Ht. apply sorted_In, filter_In. auto.
Qed.

Lemma X10_witness_doc_numbered :
  extract_outline padded_KMeans true doc_numbered
  = Some (lit "Overview 1.1 Scope", [details_entry]) /\
  (exists hs,
     sorted_headings padded_KMeans true doc_numbered = Some hs /\
     (length (filter is_p1_h1 hs) <= 2)%nat /\
     trimmed (lit "Overview 1.1 Scope") /\
     lit "Overview 1.1 Scope"
     = strip (concat (map h_text
                (sorted Qle_bool h_y (filter is_p1_h1 hs)))) /\
     forall e, In e [details_entry] ->
               ~ (o_page e = 1%nat /\ o_level e = lit "H1")).
Proof.
  split; [exact doc_numbered_outline|].
  destruct (sorted_headings padded_KMeans true doc_numbered) as [hs|] eqn:Hs;
    [|vm_compute in Hs; discriminate Hs].
  assert (Hlen : (length (filter is_p1_h1 hs) <= 2)%nat).
  { vm_compute in Hs. injection Hs as <-. vm_compute. repeat constructor. }
  exists hs. split; [reflexivity|]. split; [exact Hlen|].
  destruct (@X10_title_trimmed_and_top_headings_removed bool padded_KMeans
              true doc_numbered _ _ hs doc_numbered_outline Hs) as [Ht Hr].
  split; [exact Ht|]. exact (Hr Hlen).
Defined.

End OutlineFilters.

(* ================================================================== *)
(** * Further properties of the section analysis                       *)
(* ================================================================== *)

Section CleanText.

Import Challenge_1b Samples.

Lemma sub_runs_In (cls : ascii -> bool) (b : bool) (s : str) (c : ascii) :
  In c (sub_runs cls b s) -> c = " "%char \/ (In c s /\ cls c = false).
Proof.
  revert b. induction s as [|x r IH]; intros b; simpl; [tauto|].
  destruct (cls x) eqn:E.
  - destruct b; simpl.
    + intros H. destruct (IH _ H) as [->|[H1 H2]]; auto.
    + intros [<-|H]; [auto|]. destruct (IH _ H) as [->|[H1 H2]]; auto.
  - simpl. intros [<-|H]; [auto|].
    destruct (IH _ H) as [->|[H1 H2]]; auto.
Qed.

Lemma dropwhile_In {A} (p : A -> bool) (l : list A) (x : A) :
  In x (dropwhile p l) -> In x l.
Proof.
  induction l as [|y l IH]; simpl; [tauto|].
  destruct (p y); [auto|]. simpl. tauto.
Qed.

Lemma strip_In (s : str) (c : ascii) : In c (strip s) -> In c s.
Proof.
  unfold strip, rstrip, lstrip. intros H.
  apply in_rev, dropwhile_In, in_rev, dropwhile_In in H. exact H.
Qed.

Lemma sub_runs_none (cls : ascii -> bool) (b : bool) (s : str) :
  (forall c, In c s -> cls c = false) -> sub_runs cls b s = s.
Proof.
  revert b. induction s as [|x r IH]; intros b H; simpl; [reflexivity|].
  rewrite (H x (or_introl eq_refl)). f_equal. apply IH.
  intros c Hc. apply H. right. exact Hc.
Qed.

Lemma sub_runs_single_blanks (b : bool) (s : str) :
  (forall c, In c s -> isspace c = true -> c = " "%char) ->
  no_double_blank s = true ->
  (b = true -> forall c r, s = c :: r -> c <> " "%char) ->
  sub_runs isspace b s = s.
Proof.
  revert b. induction s as [|x r IH]; intros b Hsp Hnd Hb; simpl;
    [reflexivity|].
  assert (Hr : no_double_blank r = true).
  { simpl in Hnd. destruct r; [reflexivity|].
    apply andb_true_iff in Hnd. tauto. }
  assert (Hsp' : forall c, In c r -> isspace c = true -> c = " "%char).
  { intros c Hc. apply Hsp. right. exact Hc. }
  destruct (isspace x) eqn:E.
  - pose proof (Hsp x (or_introl eq_refl) E) as ->.
    destruct b; [exfalso; eapply Hb; reflexivity|].
    f_equal. apply IH; auto.
    intros _ c r' -> ->. simpl in Hnd. discriminate Hnd.
  - f_equal. apply IH; auto. discriminate.
Qed.

Lemma strip_of_trimmed (s : str) : trimmed s -> strip s = s.
Proof.
  intros [Hh Hl]. unfold strip, rstrip, lstrip.
  assert (H1 : dropwhile isspace s = s).
  { destruct s as [|c r]; [reflexivity|]. simpl.
    rewrite (Hh c r eq_refl). reflexivity. }
  rewrite H1.
  assert (H2 : dropwhile isspace (rev s) = rev s).
  { destruct (rev s) as [|c r] eqn:E; [reflexivity|]. simpl.
    rewrite (Hl (rev r) c); [reflexivity|].
    rewrite <- (rev_involutive s), E. reflexivity. }
  rewrite H2. apply rev_involutive.
Qed.

Lemma trimmed_of_strip_fix (s : str) : strip s = s -> trimmed s.
Proof. intros H. rewrite <- H. apply strip_trimmed. Defined.

(** X11.  On a text of 7-bit characters, the text returned by
    [clean_text] has no white space at either end and is made of word
    characters, blanks and the punctuation [.,!?;:-()] only: every other
    character, and every white space that is not a blank, is gone. *)
Theorem X11_clean_text_alphabet (text : str) :
  is_ascii text = true ->
  trimmed (clean_text text) /\
  is_ascii (clean_text text) = true /\
  forall c, In c (clean_text text) ->
    is_clean_char c = true /\ (isspace c = true -> c = " "%char).
Proof.
  intros Ha.
  assert (Hin : forall c, In c (clean_text text) -> c = " "%char \/ In c text).
  { intros c H. unfold clean_text in H. apply strip_In in H.
    apply sub_runs_In in H. destruct H as [->|[H _]]; [auto|].
    apply sub_runs_In in H. destruct H as [->|[H _]]; auto. }
  split; [apply strip_trimmed|]. split.
  - unfold is_ascii in *. apply forallb_forall. intros c Hc.
    destruct (Hin c Hc) as [->|Ht]; [reflexivity|].
    rewrite forallb_forall in Ha. apply Ha, Ht.
  - intros c H. unfold clean_text in H. apply strip_In in H.
    apply sub_runs_In in H. destruct H as [->|[H Hs]]; [split; auto|].
    apply sub_runs_In in H. destruct H as [->|[_ Hw]]; [split; auto|].
    unfold is_stripped_char in Hs. apply negb_false_iff in Hs.
    unfold is_clean_char. rewrite Hw in *. split; [|discriminate].
    rewrite orb_false_r in Hs. apply orb_true_iff in Hs.
    destruct Hs as [->| ->]; [reflexivity | apply orb_true_r].
Qed.

Lemma X11_witness_draft_line :
  is_ascii (lit "  Draft #2 * see   p. 7!  ") = true /\
  trimmed (clean_text "  Draft #2 * see   p. 7!  ") /\
  is_ascii (clean_text "  Draft #2 * see   p. 7!  ") = true /\
  forall c, In c (clean_text "  Draft #2 * see   p. 7!  ") ->
    is_clean_char c = true /\ (isspace c = true -> c = " "%char).
Proof.
  split; [reflexivity|].
  apply (@X11_clean_text_alphabet (lit "  Draft #2 * see   p. 7!  ")).
  reflexivity.
Defined.

(** What the witness is cleaned to: the two removed signs leave blanks. *)
Example clean_text_draft_line :
  clean_text "  Draft #2 * see   p. 7!  " = lit "Draft  2   see p. 7!".
Proof. vm_compute. reflexivity. Qed.

(** X12.  [clean_text] leaves a clean text as it is: a text without white
    space at either end, made of word characters, blanks and kept
    punctuation, with no two blanks in a row. *)
Theorem X12_clean_text_fixes_clean_text (text : str) :
  trimmed text ->
  (forall c, In c text -> is_clean_char c = true) ->
  no_double_blank text = true ->
  clean_text text = text.
Proof.
  intros Ht Hc Hnd. unfold clean_text.
  assert (Hsp : forall c, In c text -> isspace c = true -> c = " "%char).
  { intros c Hin Hs. specialize (Hc c Hin). unfold is_clean_char in Hc.
    destruct (Ascii.eqb c " ") eqn:E; [apply Ascii.eqb_eq, E|].
    exfalso. revert Hc Hs E.
    unfold isword, is_kept_punct, isspace, isdigit, isupper_char,
      islower_char, between, ord.
    destruct c as [[] [] [] [] [] [] [] []]; vm_compute; intros; discriminate. }
  rewrite (@sub_runs_single_blanks false text Hsp Hnd); [|discriminate].
  rewrite sub_runs_none; [apply strip_of_trimmed, Ht|].
  intros c Hin. specialize (Hc c Hin). unfold is_stripped_char.
  apply negb_false_iff. unfold is_clean_char in Hc.
  destruct (isword c); [reflexivity|]. simpl in Hc |- *.
  destruct (Ascii.eqb c " ") eqn:E.
  - apply Ascii.eqb_eq in E. subst c. reflexivity.
  - simpl in Hc. rewrite Hc. apply orb_true_r.
Qed.

Lemma X12_witness_clean_sentence :
  trimmed (lit "Tables 1-3 (draft): see p. 7!") /\
  (forall c, In c (lit "Tables 1-3 (draft): see p. 7!") ->
             is_clean_char c = true) /\
  no_double_blank (lit "Tables 1-3 (draft): see p. 7!") = true /\
  clean_text "Tables 1-3 (draft): see p. 7!"
  = lit "Tables 1-3 (draft): see p. 7!".
Proof.
  assert (H1 : trimmed (lit "Tables 1-3 (draft): see p. 7!")).
  { apply trimmed_of_strip_fix. reflexivity. }
  assert (H2 : forall c, In c (lit "Tables 1-3 (draft): see p. 7!") ->
                         is_clean_char c = true).
  { apply Forall_forall. vm_compute. repeat constructor. }
  assert (H3 : no_double_blank (lit "Tables 1-3 (draft): see p. 7!") = true)
    by reflexivity.
  split; [exact H1|]. split; [exact H2|]. split; [exact H3|].
  exact (@X12_clean_text_fixes_clean_text _ H1 H2 H3).
Defined.

(** ** Keywords *)

Lemma findall_words_from_spec (s cur w : str) :
  (forall c, In c cur -> isword c = true) ->
  In w (findall_words_from cur s) ->
  w <> [] /\ forall c, In c w -> isword c = true /\ (In c cur \/ In c s).
Proof.
  revert cur. induction s as [|x r IH]; intros cur Hcur; simpl.
  - destruct cur as [|c0 cur']; [intros []|]. intros [<-|[]].
    split.
    + intros E. apply (f_equal (@rev ascii)) in E.
      rewrite rev_involutive in E. discriminate.
    + intros c Hc. apply in_rev in Hc. auto.
  - destruct (isword x) eqn:E.
    + intros H. destruct (IH (x :: cur)) with (2 := H) as [Hne Hw].
      * intros c [<-|Hc]; auto.
      * split; [exact Hne|]. intros c Hc.
        destruct (Hw c Hc) as [Hi [[<-|Hin]|Hin]];
          (split; [exact Hi|]); simpl; auto.
    + assert (Hrest : In w (findall_words_from [] r) ->
                w <> [] /\
                forall c, In c w ->
                  isword c = true /\ (In c cur \/ In c (x :: r))).
      { intros H. destruct (IH []) with (2 := H) as [Hne Hw];
          [intros c []|].
        split; [exact Hne|]. intros c Hc.
        destruct (Hw c Hc) as [Hi [[]|Hin]].
        split; [exact Hi | right; right; exact Hin]. }
      destruct cur as [|c0 cur']; [exact Hrest|].
      intros [<-|H]; [|exact (Hrest H)]. split.
      * intros E'. apply (f_equal (@rev ascii)) in E'.
        rewrite rev_involutive in E'. discriminate.
      * intros c Hc. apply in_rev in Hc. auto.
Qed.

Lemma lower_char_not_upper (c : ascii) : isupper_char (lower_char c) = false.
Proof.
  destruct c as [[] [] [] [] [] [] [] []]; vm_compute; reflexivity.
Qed.

(** X13.  On a text of 7-bit characters, every keyword of
    [extract_keywords] is a non-empty run of word characters without
    upper-case letters, at least [min_length] long, that is no stop word and
    not a number. *)
Theorem X13_extract_keywords_filtered (text : str) (min_length : nat) (w : str) :
  is_ascii text = true ->
  In w (extract_keywords text min_length) ->
  w <> [] /\ (min_length <= length w)%nat /\
  ~ In w stop_words /\ isdigit_str w = false /\
  is_ascii w = true /\
  forall c, In c w -> isword c = true /\ isupper_char c = false.
Proof.
  unfold extract_keywords, findall_words. intros Ha H. apply filter_In in H.
  destruct H as [Hin Hb].
  apply andb_true_iff in Hb. destruct Hb as [Hb Hd].
  apply andb_true_iff in Hb. destruct Hb as [Hlen Hstop].
  apply Nat.leb_le in Hlen. apply negb_true_iff in Hstop, Hd.
  destruct (@findall_words_from_spec (lower text) [] w) as [Hne Hw];
    [intros c [] | exact Hin |].
  split; [exact Hne|]. split; [exact Hlen|]. split; [|split; [exact Hd|split]].
  - intros Hs. assert (existsb (str_eqb w) stop_words = true); [|congruence].
    apply existsb_exists. exists w. split; [exact Hs|].
    apply str_eqb_eq. reflexivity.
  - unfold is_ascii in *. apply forallb_forall. intros c Hc.
    destruct (Hw c Hc) as [_ [[]|Hl]]. unfold lower in Hl.
    apply in_map_iff in Hl. destruct Hl as (c' & <- & Hc').
    rewrite forallb_forall in Ha. specialize (Ha c' Hc').
    revert Ha. clear.
    destruct c' as [[] [] [] [] [] [] [] []]; vm_compute; intros; congruence.
  - intros c Hc. split; [apply Hw, Hc|].
    destruct (Hw c Hc) as [_ [[]|Hl]]. unfold lower in Hl.
    apply in_map_iff in Hl. destruct Hl as (c' & <- & _).
    apply lower_char_not_upper.
Qed.

Lemma X13_witness_keyword :
  is_ascii (lit "The Quick fox, 2024") = true /\
  In (lit "quick") (extract_keywords "The Quick fox, 2024" 3) /\
  lit "quick" <> [] /\ (3 <= length (lit "quick"))%nat /\
  ~ In (lit "quick") stop_words /\ isdigit_str (lit "quick") = false /\
  is_ascii (lit "quick") = true /\
  forall c, In c (lit "quick") -> isword c = true /\ isupper_char c = false.
Proof.
  assert (Ha : is_ascii (lit "The Quick fox, 2024") = true) by reflexivity.
  assert (H : In (lit "quick") (extract_keywords "The Quick fox, 2024" 3)).
  { vm_compute. left. reflexivity. }
  split; [exact Ha|]. split; [exact H|].
  exact (@X13_extract_keywords_filtered _ _ _ Ha H).
Defined.

End CleanText.

Section SegmentStructure.

Import Challenge_1b Samples.

Lemma segment_unfold (items : list item) :
  segment items
  = match sorted pair_leb (fun it => (i_p it, i_y it)) items with
    | [] => []
    | it :: r =>
        run_open (if is_title_line (i_text it)
                  then new_section (clean_text (i_text it)) (i_p it + 1) empty
                  else new_section "Introduction" (i_p it + 1)
                                   (clean_text (i_text it)))
                 r
    end.
Proof.
  unfold segment.
  destruct (sorted pair_leb (fun it => (i_p it, i_y it)) items) as [|it r];
    [reflexivity|].
  cbn [fold_left].
  assert (Hstep :
    step ([], None) it
    = ([], Some (if is_title_line (i_text it)
                 then new_section (clean_text (i_text it)) (i_p it + 1) empty
                 else new_section "Introduction" (i_p it + 1)
                                  (clean_text (i_text it))))).
  { unfold step. destruct (is_title_line (i_text it)); reflexivity. }
  rewrite Hstep, close_fold_open. reflexivity.
Qed.

Lemma run_open_heads (c : section) (ls : list item) :
  map (fun s => (title s, page s)) (run_open c ls)
  = (title c, page c) :: map heading_of_line (filter is_title_item ls).
Proof.
  revert c. induction ls as [|it r IH]; intros c; simpl; [reflexivity|].
  unfold is_title_item at 1.
  destruct (is_title_line (i_text it)); simpl.
  - rewrite IH. reflexivity.
  - rewrite IH. reflexivity.
Qed.

Lemma line_to_item_page p line it :
  In it (line_to_item p line) -> i_p it = p /\ i_text it <> [].
Proof.
  unfold line_to_item.
  destruct (join _ _) as [|c r]; [intros []|].
  intros [<-|[]]. simpl. split; [reflexivity | discriminate].
Qed.

Lemma document_items_page (doc : Document) (it : item) :
  In it (document_items doc) ->
  (i_p it < page_count doc)%nat /\ i_text it <> [].
Proof.
  unfold document_items. intros H. apply in_flat_map in H.
  destruct H as ([p pg] & Hpg & H). apply In_combine_seq in Hpg.
  unfold page_to_items in H. apply in_flat_map in H.
  destruct H as (b & _ & H).
  destruct (negb (block_type b =? 0)%Z); [contradiction|].
  apply in_flat_map in H. destruct H as (line & _ & H).
  apply line_to_item_page in H. destruct H as [-> Ht].
  split; [|exact Ht]. apply nth_error_Some. unfold page_count.
  congruence.
Qed.

Lemma sorted_items_by_page (doc : Document) :
  StronglySorted (fun a b => (i_p a <= i_p b)%nat) (sorted_items doc).
Proof.
  eapply StronglySorted_weaken;
    [| apply sorted_StronglySorted;
       [apply pair_leb_total | apply pair_leb_trans]].
  intros a b Hab. apply pair_leb_spec in Hab. simpl in Hab. lia.
Qed.

Lemma segment_heads (doc : Document) :
  map (fun s => (title s, page s)) (segment (document_items doc))
  = introduction_heading (sorted_items doc)
    ++ map heading_of_line (filter is_title_item (sorted_items doc)).
Proof.
  rewrite segment_unfold. fold (sorted_items doc).
  destruct (sorted_items doc) as [|it r]; [reflexivity|].
  rewrite run_open_heads. unfold introduction_heading. cbn [filter].
  change (is_title_item it) with (is_title_line (i_text it)).
  destruct (is_title_line (i_text it)); reflexivity.
Qed.

Lemma segment_page_valid (doc : Document) (s : section) :
  In s (segment (document_items doc)) ->
  (1 <= page s <= page_count doc)%nat.
Proof.
  intros Hs.
  assert (Hin : In (title s, page s)
                   (map (fun s => (title s, page s))
                        (segment (document_items doc)))).
  { apply in_map_iff. exists s. auto. }
  rewrite segment_heads in Hin. apply in_app_or in Hin.
  assert (Hit : exists t, In t (sorted_items doc) /\ page s = (i_p t + 1)%nat).
  { destruct Hin as [Hin|Hin].
    - destruct (sorted_items doc) as [|l r]; [destruct Hin|].
      simpl in Hin. destruct (is_title_item l); [destruct Hin|].
      destruct Hin as [[= _ Hp]|[]]. exists l.
      split; [left; reflexivity | symmetry; exact Hp].
    - apply in_map_iff in Hin. destruct Hin as (t & [= _ Hp] & Ht).
      apply filter_In in Ht. exists t.
      split; [tauto | symmetry; exact Hp]. }
  destruct Hit as (t & Ht & ->).
  apply sorted_In, document_items_page in Ht. lia.
Qed.

(** X14.  The sections of the loop are, in order, the section
    "Introduction" when the first line is no title, then one section for
    every title line, with the cleaned text of the line as title and the
    1-based page of the line; their pages never decrease and are pages of
    the document.  A document without text has no section. *)
Theorem X14_one_section_per_title_line (doc : Document) :
  map (fun s => (title s, page s)) (segment (document_items doc))
  = introduction_heading (sorted_items doc)
    ++ map heading_of_line (filter is_title_item (sorted_items doc)) /\
  StronglySorted le (map page (segment (document_items doc))) /\
  (forall s, In s (segment (document_items doc)) ->
     (1 <= page s <= page_count doc)%nat) /\
  (document_items doc = [] -> extract_sections doc = []).
Proof.
  assert (Hpages :
    map page (segment (document_items doc))
    = map snd (introduction_heading (sorted_items doc))
      ++ map (fun t => (i_p t + 1)%nat)
             (filter is_title_item (sorted_items doc))).
  { rewrite <- (map_map (fun s => (title s, page s)) snd), segment_heads.
    rewrite map_app, map_map. reflexivity. }
  split; [apply segment_heads|]. split; [|split].
  - rewrite Hpages. pose proof (sorted_items_by_page doc) as Hs.
    destruct (sorted_items doc) as [|l r]; [constructor|].
    unfold introduction_heading. destruct (is_title_item l) eqn:El.
    + cbn [map app]. eapply StronglySorted_map;
        [| apply StronglySorted_filter; exact Hs].
      intros a b Hab. simpl in Hab. lia.
    + cbn [map app snd filter]. rewrite El.
      inversion Hs as [|? ? Hr Hl]; subst.
      constructor.
      * eapply StronglySorted_map;
          [| apply StronglySorted_filter; exact Hr].
        intros a b Hab. simpl in Hab. lia.
      * apply Forall_map. apply Forall_forall. intros t Ht.
        apply filter_In in Ht. destruct Ht as [Ht _].
        rewrite Forall_forall in Hl. specialize (Hl t Ht). simpl in Hl. lia.
  - apply segment_page_valid.
  - intros H. unfold extract_sections. rewrite H. reflexivity.
Qed.

Lemma at_position_tie (p : nat) (y : Q) (a b : item) :
  at_position p y a = true -> at_position p y b = true ->
  pair_leb (i_p a, i_y a) (i_p b, i_y b) = true.
Proof.
  unfold at_position. rewrite !andb_true_iff, !Nat.eqb_eq, !Qeq_bool_iff.
  intros [-> Ha] [-> Hb]. apply pair_leb_spec. right. simpl.
  split; [reflexivity|]. rewrite Ha, Hb. apply Qle_refl.
Qed.

(** X15.  The sort of the lines by page and position keeps the lines of one
    position in the order of the document: their texts reach the body of a
    section in that order. *)
Theorem X15_lines_of_one_position_keep_their_order
    (doc : Document) (p : nat) (y : Q) :
  filter (at_position p y) (sorted_items doc)
  = filter (at_position p y) (document_items doc).
Proof.
  unfold sorted_items. apply sorted_stable.
  intros a b Ha Hb. eapply at_position_tie; eauto.
Qed.

End SegmentStructure.

Section RankingFacts.

Import Challenge_1b Samples.

Variable similarities : list str -> str -> list Q.

Lemma mapM_None {A B} (f : A -> option B) (l : list A) :
  mapM f l = None <-> exists a, In a l /\ f a = None.
Proof.
  induction l as [|a r IH]; simpl.
  - split; [discriminate | intros (a & [] & _)].
  - destruct (f a) as [b|] eqn:Ea; simpl.
    + destruct (mapM f r) as [bs|]; simpl.
      * split; [discriminate|]. intros (a' & [<-|Ha'] & Hf); [congruence|].
        assert (None = @None (list B)) by reflexivity.
        destruct IH as [_ IH]. discriminate IH. eauto.
      * split; [|reflexivity]. intros _.
        destruct IH as [IH _]. destruct (IH eq_refl) as (a' & Ha' & Hf).
        eauto.
    + split; [|reflexivity]. intros _. exists a. auto.
Qed.

Lemma rank_sections_inv self sections persona job ranked :
  rank_sections similarities self sections persona job = Some ranked ->
  exists scored,
    scored_from (similarities (section_texts sections)
                              (persona ++ lit " " ++ job))
                sections scored /\
    ranked
    = map (fun '(idx, s) => set_importance_rank idx s)
          (combine
             (seq 1 (length (firstn (max_sections self)
                                    (sorted Qle_bool score_key scored))))
             (firstn (max_sections self) (sorted Qle_bool score_key scored))).
Proof.
  unfold rank_sections. fold (section_texts sections).
  set (sims := similarities _ _).
  destruct (mapM _ _) as [scored|] eqn:Em; cbn [bind]; [|discriminate].
  intros [= <-]. exists scored. split; [|reflexivity].
  apply mapM_Some in Em. destruct Em as [Hlen Hnth]. split.
  - rewrite Hlen, length_combine, length_seq. apply Nat.min_id.
  - intros i s Hs.
    destruct (Hnth i (i, s)) as (b & Hb & Hf).
    { rewrite nth_error_combine_seq, Hs. reflexivity. }
    destruct (nth_error sims i) as [q|]; cbn [bind] in Hf; [|discriminate].
    injection Hf as <-. exists q. auto.
Qed.

Lemma scored_from_In sims sections scored y :
  scored_from sims sections scored -> In y scored ->
  exists s q, In s sections /\ y = set_score q s.
Proof.
  intros [Hlen Hnth] Hy. apply In_nth_error in Hy. destruct Hy as [i Hi].
  assert (Hlt : (i < length sections)%nat).
  { rewrite <- Hlen. apply nth_error_Some. congruence. }
  destruct (nth_error sections i) as [s|] eqn:Es;
    [|apply nth_error_None in Es; lia].
  destruct (Hnth i s Es) as (q & _ & Hq). exists s, q.
  split; [eapply nth_error_In, Es | congruence].
Qed.

Lemma StronglySorted_impl_in {A} (R S : A -> A -> Prop) (l : list A) :
  (forall a b, In a l -> In b l -> R a b -> S a b) ->
  StronglySorted R l -> StronglySorted S l.
Proof.
  intros H Hs. induction Hs as [|x l Hl IH Hx]; constructor.
  - apply IH. intros a b Ha Hb. apply H; right; assumption.
  - rewrite Forall_forall in *. intros y Hy.
    apply H; [left; reflexivity | right; exact Hy | apply Hx, Hy].
Qed.

Lemma StronglySorted_numbered {A B} (R : A -> A -> Prop) (S : B -> B -> Prop)
    (f : nat * A -> B) (l : list A) (a : nat) :
  (forall i j x y, R x y -> S (f (i, x)) (f (j, y))) ->
  StronglySorted R l ->
  StronglySorted S (map f (combine (seq a (length l)) l)).
Proof.
  intros H Hs. revert a. induction Hs as [|x l Hl IH Hx]; intros a; simpl.
  - constructor.
  - constructor; [apply IH|].
    apply Forall_forall. intros b Hb. apply in_map_iff in Hb.
    destruct Hb as ([j y] & <- & Hjy). apply in_combine_r in Hjy.
    rewrite Forall_forall in Hx. apply H, Hx, Hjy.
Qed.

Lemma ranked_In self sections persona job ranked sec :
  rank_sections similarities self sections persona job = Some ranked ->
  In sec ranked ->
  exists s q idx,
    In s sections /\ sec = set_importance_rank idx (set_score q s).
Proof.
  intros H Hin. destruct (rank_sections_inv _ _ _ _ H) as (scored & Hsc & Hr).
  rewrite Hr in Hin. apply in_map_iff in Hin.
  destruct Hin as ([idx y] & <- & Hy).
  apply in_combine_r, firstn_In, sorted_In in Hy.
  destruct (@scored_from_In _ _ _ _ Hsc Hy) as (s & q & Hs & ->).
  exists s, q, idx. auto.
Qed.

Lemma scored_sorted_descending sims sections scored :
  scored_from sims sections scored ->
  StronglySorted score_ge (sorted Qle_bool score_key scored).
Proof.
  intros Hsc.
  eapply StronglySorted_impl_in;
    [| apply sorted_StronglySorted;
       [apply Qle_bool_total | apply Qle_bool_trans]].
  intros a b Ha Hb Hab. apply sorted_In in Ha, Hb.
  destruct (@scored_from_In _ _ _ _ Hsc Ha) as (sa & qa & _ & ->).
  destruct (@scored_from_In _ _ _ _ Hsc Hb) as (sb & qb & _ & ->).
  unfold key_le in Hab. apply Qle_bool_iff in Hab.
  unfold score_ge, score_key in *. simpl in *. lra.
Qed.

(** X16.  The list returned by [rank_sections] has as many sections as the
    pool, but no more than [max_sections]; the section at position [i] has
    importance rank [i + 1] and is a section of the pool, its title, page,
    content and document unchanged; and the scores never increase along the
    list. *)
Theorem X16_ranked_sections_numbered_by_descending_score
    self sections persona job ranked :
  rank_sections similarities self sections persona job = Some ranked ->
  length ranked = Nat.min (max_sections self) (length sections) /\
  (forall i sec, nth_error ranked i = Some sec ->
     importance_rank sec = Some (i + 1)%nat /\
     exists s, In s sections /\ base sec = base s) /\
  StronglySorted score_ge ranked.
Proof.
  intros H. destruct (rank_sections_inv _ _ _ _ H) as (scored & Hsc & Hr).
  split; [|split].
  - rewrite Hr, length_map, length_combine, length_seq, Nat.min_id.
    rewrite length_firstn, sorted_length. destruct Hsc as [-> _]. reflexivity.
  - intros i sec Hi.
    destruct (rank_sections_rank _ _ _ _ _ _ H Hi) as [Hrank _].
    split; [exact Hrank|].
    destruct (@ranked_In _ _ _ _ _ _ H (nth_error_In _ _ Hi))
      as (s & q & idx & Hs & ->).
    exists s. split; [exact Hs | reflexivity].
  - rewrite Hr.
    apply StronglySorted_numbered with (R := score_ge).
    + intros i j x y Hxy. exact Hxy.
    + apply StronglySorted_firstn. eapply scored_sorted_descending, Hsc.
Qed.

Lemma filter_firstn_prefix {A} (p : A -> bool) (n : nat) (l : list A) :
  exists m, filter p (firstn n l) = firstn m (filter p l).
Proof.
  revert n. induction l as [|x l IH]; intros n.
  - exists 0%nat. rewrite firstn_nil. reflexivity.
  - destruct n as [|n]; [exists 0%nat; reflexivity|].
    destruct (IH n) as [m Hm]. simpl. destruct (p x).
    + exists (S m). simpl. rewrite Hm. reflexivity.
    + exists m. exact Hm.
Qed.

Lemma filter_numbered (q : Q) (a : nat) (l : list section) :
  map base (filter (has_score q)
              (map (fun '(idx, s) => set_importance_rank idx s)
                   (combine (seq a (length l)) l)))
  = map base (filter (has_score q) l).
Proof.
  revert a. induction l as [|x l IH]; intros a; [reflexivity|].
  simpl. change (has_score q (set_importance_rank a x)) with (has_score q x).
  destruct (has_score q x); simpl; rewrite IH; reflexivity.
Qed.

Lemma has_score_tie (q : Q) (a b : section) :
  has_score q a = true -> has_score q b = true ->
  Qle_bool (score_key a) (score_key b) = true.
Proof.
  unfold has_score, score_key.
  destruct (score a) as [x|]; [|discriminate].
  destruct (score b) as [y|]; [|discriminate].
  rewrite !Qeq_bool_iff, Qle_bool_iff. intros Hx Hy. lra.
Qed.

(** X17.  Sections with the same score keep the order of the pool in the
    ranked list: for every score, the ranked sections with that score are
    the first of the pooled sections with that score, in the same order,
    and all of them when the pool is no larger than [max_sections]. *)
Theorem X17_equal_scores_keep_pool_order
    self sections persona job ranked :
  rank_sections similarities self sections persona job = Some ranked ->
  exists scored,
    scored_from (similarities (section_texts sections)
                              (persona ++ lit " " ++ job))
                sections scored /\
    forall q,
      (exists m, map base (filter (has_score q) ranked)
                 = firstn m (map base (filter (has_score q) scored))) /\
      ((length sections <= max_sections self)%nat ->
       map base (filter (has_score q) ranked)
       = map base (filter (has_score q) scored)).
Proof.
  intros H. destruct (rank_sections_inv _ _ _ _ H) as (scored & Hsc & Hr).
  exists scored. split; [exact Hsc|]. intros q.
  assert (Hstable : filter (has_score q) (sorted Qle_bool score_key scored)
                    = filter (has_score q) scored).
  { apply sorted_stable. intros a b. apply has_score_tie. }
  rewrite Hr, filter_numbered. split.
  - destruct (filter_firstn_prefix (has_score q) (max_sections self)
                (sorted Qle_bool score_key scored)) as [m Hm].
    exists m. rewrite Hm, Hstable. symmetry. apply firstn_map.
  - intros Hlen. rewrite firstn_all2, Hstable; [reflexivity|].
    rewrite sorted_length. destruct Hsc as [-> _]. exact Hlen.
Qed.

End RankingFacts.

Section ExcerptFacts.

Import Challenge_1b Samples.

(** X19.  [extract_subsections] fails on [sec['document']] exactly when one
    of the first [max_subs] sections has no document; the sections after
    them are not read. *)
Theorem X19_excerpts_need_the_document_of_the_first_sections
    (self : DocumentAnalyzer) (ranked : list section) :
  (extract_subsections self ranked = None <->
   exists sec, In sec (firstn (max_subs self) ranked) /\ document sec = None) /\
  extract_subsections self ranked
  = extract_subsections self (firstn (max_subs self) ranked).
Proof.
  unfold extract_subsections. split.
  - rewrite mapM_None. split; intros (sec & Hin & H); exists sec;
      (split; [exact Hin|]); unfold excerpt_of in *;
      destruct (document sec); try reflexivity; discriminate.
  - rewrite firstn_firstn, Nat.min_id. reflexivity.
Qed.

Lemma split_sentences_from_nonempty cur ae sep s :
  split_sentences_from cur ae sep s <> [].
Proof.
  revert cur ae sep. induction s as [|c r IH]; intros cur ae sep; simpl.
  - discriminate.
  - destruct (Ascii.eqb c " " && (ae || sep)); [destruct sep|];
      try apply IH. discriminate.
Qed.

Lemma join_cons (sep p : str) (r : list str) :
  r <> [] -> join sep (p :: r) = p ++ sep ++ join sep r.
Proof. destruct r; [congruence | reflexivity]. Qed.

Lemma split_sentences_from_length cur ae sep s :
  (length (join " " (split_sentences_from cur ae sep s))
   <= length cur + length s)%nat.
Proof.
  revert cur ae sep. induction s as [|c r IH]; intros cur ae sep; simpl.
  - rewrite length_rev. lia.
  - destruct (Ascii.eqb c " " && (ae || sep)).
    + destruct sep.
      * specialize (IH [] false true). simpl in IH. lia.
      * rewrite join_cons by apply split_sentences_from_nonempty.
        rewrite !length_app, length_rev.
        specialize (IH [] false true). simpl in IH |- *. lia.
    + specialize (IH (c :: cur) (is_sentence_end c) false).
      simpl in IH. lia.
Qed.

Lemma join_firstn_length (sep : str) (n : nat) (l : list str) :
  (length (join sep (firstn n l)) <= length (join sep l))%nat.
Proof.
  revert n. induction l as [|p r IH]; intros n.
  - rewrite firstn_nil. simpl. lia.
  - destruct n as [|n]; [simpl; lia|].
    destruct r as [|q r'].
    + rewrite firstn_cons, firstn_nil. lia.
    + rewrite firstn_cons, (@join_cons sep p (q :: r')) by discriminate.
      destruct n as [|n].
      * rewrite firstn_0. simpl join. rewrite !length_app. lia.
      * rewrite join_cons by (simpl; discriminate).
        rewrite !length_app. specialize (IH (S n)). lia.
Qed.

(** X20.  An excerpt is never longer than the body it is taken from, and
    it carries the document and the page of its section. *)
Theorem X20_excerpt_no_longer_than_body (sec : section) (e : excerpt) :
  excerpt_of sec = Some e ->
  (length (refined_text e) <= length (content sec))%nat /\
  document sec = Some (e_document e) /\ page_number e = page sec.
Proof.
  unfold excerpt_of. destruct (document sec) as [d|]; cbn [bind];
    [|discriminate].
  intros H. injection H as <-. cbn [refined_text e_document page_number].
  split; [|split; reflexivity].
  apply (Nat.le_trans _ (length (join " " (split_sentences (content sec))))).
  - apply (join_firstn_length (lit " ") 3 (split_sentences (content sec))).
  - apply (split_sentences_from_length [] false false).
Qed.

Lemma X20_witness_methods_excerpt :
  excerpt_of (set_document "a.pdf" methods_section)
  = Some {| e_document := "a.pdf";
            refined_text := " We ran it. It worked! Twice?";
            page_number := 1 |} /\
  (length (lit " We ran it. It worked! Twice?")
   <= length (content (set_document "a.pdf" methods_section)))%nat /\
  document (set_document "a.pdf" methods_section) = Some (lit "a.pdf") /\
  1%nat = page (set_document "a.pdf" methods_section).
Proof.
  assert (H : excerpt_of (set_document "a.pdf" methods_section)
              = Some {| e_document := "a.pdf";
                        refined_text := " We ran it. It worked! Twice?";
                        page_number := 1 |}).
  { vm_compute. reflexivity. }
  split; [exact H|].
  exact (@X20_excerpt_no_longer_than_body _ _ H).
Defined.

End ExcerptFacts.

Section CollectionFacts.

Import Challenge_1b Samples.

Lemma sample_rank :
  rank_sections containment default_analyzer sample_pool "figures" "are final"
  = Some sample_ranked.
Proof. vm_compute. reflexivity. Defined.

Lemma X16_witness_sample_ranking :
  rank_sections containment default_analyzer sample_pool "figures" "are final"
  = Some sample_ranked /\
  length sample_ranked
  = Nat.min (max_sections default_analyzer) (length sample_pool) /\
  (forall i sec, nth_error sample_ranked i = Some sec ->
     importance_rank sec = Some (i + 1)%nat /\
     exists s, In s sample_pool /\ base sec = base s) /\
  StronglySorted score_ge sample_ranked.
Proof.
  split; [exact sample_rank|].
  exact (@X16_ranked_sections_numbered_by_descending_score
           containment default_analyzer sample_pool "figures" "are final"
           sample_ranked sample_rank).
Defined.

Lemma X17_witness_sample_ranking :
  rank_sections containment default_analyzer sample_pool "figures" "are final"
  = Some sample_ranked /\
  exists scored,
    scored_from (containment (section_texts sample_pool)
                             (lit "figures" ++ lit " " ++ lit "are final"))
                sample_pool scored /\
    forall q,
      (exists m, map base (filter (has_score q) sample_ranked)
                 = firstn m (map base (filter (has_score q) scored))) /\
      ((length sample_pool <= max_sections default_analyzer)%nat ->
       map base (filter (has_score q) sample_ranked)
       = map base (filter (has_score q) scored)).
Proof.
  split; [exact sample_rank|].
  exact (@X17_equal_scores_keep_pool_order
           containment default_analyzer sample_pool "figures" "are final"
           sample_ranked sample_rank).
Defined.

(** The two sections of score 0 of the sample keep the order of the pool. *)
Example sample_ties_in_pool_order :
  map title (filter (has_score 0) sample_ranked)
  = [lit "Introduction"; lit "METHODS"] /\
  map title (filter (fun s => negb (str_eqb (title s) "Results:")) sample_pool)
  = [lit "Introduction"; lit "METHODS"].
Proof. split; vm_compute; reflexivity. Qed.

Lemma pool_section (docs : list (str * Document)) (s : section) :
  In s (flat_map (fun '(filename, pdf) =>
                    map (set_document filename) (extract_sections pdf))
                 docs) ->
  exists filename pdf s',
    In (filename, pdf) docs /\ In s' (extract_sections pdf) /\
    s = set_document filename s'.
Proof.
  intros H. apply in_flat_map in H. destruct H as ([filename pdf] & Hd & H).
  apply in_map_iff in H. destruct H as (s' & <- & Hs').
  exists filename, pdf, s'. auto.
Qed.

(** X21.  The output of a collection: at most 10 ranked sections, each from
    one of the documents of the collection, named by its file, with a body
    longer than 20 characters and a page of that document; and as many
    excerpts as ranked sections, but no more than 5, the excerpt at position
    [i] made from the ranked section at position [i]. *)
Theorem X21_collection_output
    (similarities : list str -> str -> list Q)
    (docs : list (str * Document)) (persona job : str)
    (ranked : list section) (subs : list excerpt) :
  process_collection similarities docs persona job = Some (ranked, subs) ->
  (length ranked <= 10)%nat /\
  length subs = Nat.min 5 (length ranked) /\
  (forall sec, In sec ranked ->
     exists filename pdf,
       In (filename, pdf) docs /\ document sec = Some filename /\
       (20 < length (content sec))%nat /\
       (1 <= page sec <= page_count pdf)%nat) /\
  (forall i e, nth_error subs i = Some e ->
     exists sec, nth_error ranked i = Some sec /\ excerpt_of sec = Some e).
Proof.
  unfold process_collection.
  destruct (rank_sections _ _ _ _ _) as [rk|] eqn:Er; cbn [bind];
    [|discriminate].
  destruct (extract_subsections default_analyzer rk) as [ex|] eqn:Ex;
    cbn [bind]; [|discriminate].
  intros [= <- <-]. split; [|split; [|split]].
  - destruct (rank_sections_inv _ _ _ _ _ Er) as (scored & _ & ->).
    rewrite length_map, length_combine, length_seq, Nat.min_id.
    rewrite length_firstn.
    change (max_sections default_analyzer) with 10%nat. lia.
  - unfold extract_subsections in Ex. apply mapM_Some in Ex.
    destruct Ex as [-> _]. rewrite length_firstn. reflexivity.
  - intros sec Hin.
    destruct (@ranked_In _ _ _ _ _ _ _ Er Hin) as (s & q & idx & Hs & ->).
    apply pool_section in Hs.
    destruct Hs as (filename & pdf & s' & Hd & Hs' & ->).
    exists filename, pdf. apply C6_kept_iff in Hs'. destruct Hs' as [Hseg Hlen].
    apply segment_page_valid in Hseg. simpl. auto.
  - intros i e He.
    destruct (extract_subsections_nth _ _ _ Ex He) as (_ & sec & Hs & Hex).
    exists sec. auto.
Qed.

Lemma sample_process :
  process_collection containment sample_collection "figures" "are final"
  = Some (sample_ranked, sample_excerpts).
Proof. vm_compute. reflexivity. Defined.

Lemma X21_witness_sample_collection :
  process_collection containment sample_collection "figures" "are final"
  = Some (sample_ranked, sample_excerpts) /\
  (length sample_ranked <= 10)%nat /\
  length sample_excerpts = Nat.min 5 (length sample_ranked) /\
  (forall sec, In sec sample_ranked ->
     exists filename pdf,
       In (filename, pdf) sample_collection /\ document sec = Some filename /\
       (20 < length (content sec))%nat /\
       (1 <= page sec <= page_count pdf)%nat) /\
  (forall i e, nth_error sample_excerpts i = Some e ->
     exists sec, nth_error sample_ranked i = Some sec /\
                 excerpt_of sec = Some e).
Proof.
  split; [exact sample_process|].
  exact (@X21_collection_output containment sample_collection
           "figures" "are final" sample_ranked sample_excerpts sample_process).
Defined.

End CollectionFacts.
